(** * File-based checkpoints: slot allocation, path derivation, lifecycle

    A shallow embedding of [notebook/services/contents/filecheckpoints.py]
    (classes [FileCheckpoints] and [GenericFileCheckpoints]) and the
    properties of its slot pool, path naming and error behaviour. *)

From Stdlib Require Import ZArith Lia Ascii String.
From stdpp Require Import base gmap strings list pretty sorting.

Local Open Scope string_scope.
Local Open Scope list_scope.
Local Open Scope Z_scope.

(** ** Python string primitives used by the module *)

Module Py.

Definition sep : ascii := "/"%char.
Definition extsep : ascii := "."%char.

(** [len(s)] *)
Definition len (s : string) : Z := Z.of_nat (String.length s).

(** [s[:n]] for [0 <= n] *)
Fixpoint take (n : nat) (s : string) : string :=
  match n, s with
  | S n', String a s' => String a (take n' s')
  | _, _ => EmptyString
  end.

(** [s[n:]] for [0 <= n] *)
Fixpoint drop (n : nat) (s : string) : string :=
  match n, s with
  | S n', String _ s' => drop n' s'
  | _, _ => s
  end.

(** [s.lstrip(c)] for a one-character [c] *)
Fixpoint lstrip (c : ascii) (s : string) : string :=
  match s with
  | String a s' => if Ascii.eqb a c then lstrip c s' else s
  | EmptyString => EmptyString
  end.

(** [s.rstrip(c)] for a one-character [c] *)
Fixpoint rstrip (c : ascii) (s : string) : string :=
  match s with
  | EmptyString => EmptyString
  | String a s' =>
      match rstrip c s' with
      | EmptyString => if Ascii.eqb a c then EmptyString else String a EmptyString
      | r => String a r
      end
  end.

(** [s.strip(c)] *)
Definition strip (c : ascii) (s : string) : string := rstrip c (lstrip c s).

(** [s.rfind(c)]: the highest index of [c] in [s], [-1] when absent *)
Fixpoint rfind (c : ascii) (s : string) : Z :=
  match s with
  | EmptyString => -1
  | String a s' =>
      let r := rfind c s' in
      if 0 <=? r then r + 1 else if Ascii.eqb a c then 0 else -1
  end.

(** [s.rsplit(c, 1)]: at most one split, at the last [c] *)
Definition rsplit1 (c : ascii) (s : string) : list string :=
  let i := rfind c s in
  if i <? 0 then [s]
  else [take (Z.to_nat i) s; drop (Z.to_nat (i + 1)) s].

(** [s.startswith(c)] and [s.endswith(c)] *)
Definition startswith (c : ascii) (s : string) : bool :=
  match s with
  | String a _ => Ascii.eqb a c
  | EmptyString => false
  end.

Fixpoint endswith (c : ascii) (s : string) : bool :=
  match s with
  | EmptyString => false
  | String a EmptyString => Ascii.eqb a c
  | String _ s' => endswith c s'
  end.

(** [posixpath.join(a, b)] *)
Definition join (a b : string) : string :=
  if startswith sep b then b
  else if String.eqb a "" || endswith sep a then a +:+ b
  else a +:+ String sep b.

(** The scan of [posixpath.splitext] over [p[i:dot]]: is there a character
    that is not a dot? *)
Fixpoint some_not_dot (s : string) : bool :=
  match s with
  | EmptyString => false
  | String a s' => if Ascii.eqb a extsep then some_not_dot s' else true
  end.

(** [posixpath.splitext(p)] *)
Definition splitext (p : string) : string * string :=
  let sepIndex := rfind sep p in
  let dotIndex := rfind extsep p in
  if (sepIndex <? dotIndex)
     && some_not_dot (take (Z.to_nat (dotIndex - (sepIndex + 1)))
                           (drop (Z.to_nat (sepIndex + 1)) p))
  then (take (Z.to_nat dotIndex) p, drop (Z.to_nat dotIndex) p)
  else (p, EmptyString).

(** [c in s] for a one-character [c] *)
Fixpoint occurs (c : ascii) (s : string) : bool :=
  match s with
  | EmptyString => false
  | String a s' => Ascii.eqb a c || occurs c s'
  end.

(** ['{}'.format(i)] for an integer [i] *)
Definition str_of_int (i : Z) : string := pretty i.

End Py.

(** ** Data model *)

(** A UTC [datetime], as microseconds since the epoch (the resolution of
    Python's [datetime]). *)
Definition datetime : Type := Z.

(** A [datetime.timedelta] in Python's normal form:
    [0 <= seconds < 86400] and [0 <= microseconds < 10^6]. *)
Record timedelta_t : Type :=
  { days : Z; seconds : Z; microseconds : Z }.

(** [a - b] on datetimes *)
Definition datetime_sub (a b : datetime) : timedelta_t :=
  let us := a - b in
  {| days := us / 86400000000;
     seconds := (us mod 86400000000) / 1000000;
     microseconds := us mod 1000000 |}.

(** A regular file: its modification time and its bytes. *)
Record file : Type := { st_mtime : datetime; content : string }.

(** The file system: regular files by path, and the directories that exist. *)
Record FS : Type := { files : gmap string file; dirs : gset string }.

Definition with_files (g : gmap string file → gmap string file) (fs : FS) : FS :=
  {| files := g (files fs); dirs := dirs fs |}.

(** Exceptions the module raises or lets through. *)
Inductive exn : Type :=
| HTTPError (status : Z) (msg : string)
| OSError (errno : Z)
| IndexError
| ValueError.

Definition ENOENT : Z := 2.
Definition EPERM : Z := 1.
Definition EACCES : Z := 13.

Inductive result (A : Type) : Type :=
| Ok (a : A)
| Raise (e : exn).
Arguments Ok {A} a.
Arguments Raise {A} e.

(** Computations over the file system; an exception keeps the effects that
    happened before it. *)
Definition M (A : Type) : Type := FS → result A * FS.

Definition ret {A} (a : A) : M A := λ fs, (Ok a, fs).
Definition raise {A} (e : exn) : M A := λ fs, (Raise e, fs).
Definition bind {A B} (m : M A) (k : A → M B) : M B :=
  λ fs, match m fs with
        | (Ok a, fs') => k a fs'
        | (Raise e, fs') => (Raise e, fs')
        end.

Declare Scope py_scope.
Delimit Scope py_scope with py.
Bind Scope py_scope with M.
Notation "x <- m ;; k" := (bind m (λ x, k))
  (at level 20, m at level 99, k at level 200, only parsing) : py_scope.
Notation "' x <- m ;; k" := (bind m (λ x, k))
  (at level 20, x pattern, m at level 99, k at level 200, only parsing) : py_scope.
Notation "m ;; k" := (bind m (λ _, k))
  (at level 100, k at level 200, only parsing, right associativity) : py_scope.
Local Open Scope py_scope.

(** A [for x in l: acc = body(x, acc)] loop. *)
Fixpoint for_each {A S} (l : list A) (body : A → S → M S) (acc : S) : M S :=
  match l with
  | [] => ret acc
  | x :: l' => acc' <- body x acc ;; for_each l' body acc'
  end.

(** [l[i]] with Python's negative indices and [IndexError]. *)
Definition index {A} (l : list A) (i : Z) : M A :=
  let j := if i <? 0 then Z.of_nat (length l) + i else i in
  if j <? 0 then raise IndexError
  else match l !! Z.to_nat j with
       | Some a => ret a
       | None => raise IndexError
       end.

(** *** Operating-system calls *)

(** [os.path.isfile] *)
Definition isfile (p : string) : M bool :=
  λ fs, (Ok (bool_decide (is_Some (files fs !! p))), fs).

(** [os.stat(p).st_mtime] of a regular file, already converted by
    [tz.utcfromtimestamp] *)
Definition stat_mtime (p : string) : M datetime :=
  λ fs, match files fs !! p with
        | Some f => (Ok (st_mtime f), fs)
        | None => (Raise (OSError ENOENT), fs)
        end.

(** [os.unlink] *)
Definition unlink (p : string) : M unit :=
  λ fs, match files fs !! p with
        | Some _ => (Ok tt, with_files (delete p) fs)
        | None => (Raise (OSError ENOENT), fs)
        end.


(** Modelled from the spec: the directory-ensure utility
    ([jupyter_core.utils.ensure_dir_exists]), an idempotent create-if-absent
    for a directory path. *)
Definition ensure_dir_exists (d : string) : M unit :=
  λ fs, (Ok tt, {| files := files fs; dirs := {[ d ]} ∪ dirs fs |}).

(** Modelled from the spec: the permission-translating scope
    ([FileManagerMixin.perm_to_403], in the absent [fileio.py]): a
    permission-denied failure of the operating system becomes the
    Forbidden error, everything else passes through. *)
Definition perm_to_403 {A} (m : M A) : M A :=
  λ fs, match m fs with
        | (Raise (OSError e), fs') =>
            if bool_decide (e = EPERM ∨ e = EACCES)
            then (Raise (HTTPError 403 "Permission denied"), fs')
            else (Raise (OSError e), fs')
        | r => r
        end.

(** Modelled from the spec: the copy-based content transfer
    ([FileManagerMixin._copy], in the absent [fileio.py]): the destination
    receives the source's bytes. The modification time [stamp] that the
    destination ends up with is the environment's choice. *)
Definition _copy (stamp : datetime) (src dest : string) : M unit :=
  λ fs, match files fs !! src with
        | Some f =>
            (Ok tt, with_files
                      (insert dest {| st_mtime := stamp; content := content f |}) fs)
        | None => (Raise (OSError ENOENT), fs)
        end.

(** The rest of [FileManagerMixin] that the checkpoints classes call; these
    methods live in the absent [fileio.py] and are parameters here. *)
Record FileManagerMixin : Type :=
  { _get_os_path : string → string;
    _read_file : string → M (string * string);
    _read_notebook : string → M string;
    _save_file : string → string → string → M unit;
    _save_notebook : string → string → M unit }.

(** A [FileCheckpoints] object: its configurable traits and its mixin. *)
Record FileCheckpoints : Type :=
  { checkpoint_dir : string;
    max_checkpoints : Z;
    min_seconds_between_checkpoints : Z;
    fm : FileManagerMixin }.

(** Values given by configuration; an absent one takes the trait's default. *)
Record Config : Type :=
  { c_checkpoint_dir : option string;
    c_max_checkpoints : option Z;
    c_min_seconds_between_checkpoints : option Z }.

Definition no_config : Config :=
  {| c_checkpoint_dir := None;
     c_max_checkpoints := None;
     c_min_seconds_between_checkpoints := None |}.

Definition new_FileCheckpoints (c : Config) (mixin : FileManagerMixin) : FileCheckpoints :=
  {| checkpoint_dir := default ".ipynb_checkpoints" (c_checkpoint_dir c);
     max_checkpoints := default 5 (c_max_checkpoints c);
     min_seconds_between_checkpoints :=
       default 60 (c_min_seconds_between_checkpoints c);
     fm := mixin |}.

(** The info dict of a checkpoint. *)
Module info.
Record t : Type := mk { id : string; last_modified : datetime }.
End info.

(** The only method of the contents manager that is called. *)
Record ContentsManager : Type := { cm_get_os_path : string → string }.

(** [sorted(l, key=key, reverse=True)]: descending by key, and stable (items
    with equal keys keep their order). *)
Fixpoint insert_desc {A} (key : A → Z) (x : A) (l : list A) : list A :=
  match l with
  | [] => [x]
  | y :: l' => if key x <? key y then y :: insert_desc key x l' else x :: l
  end.

Definition sorted_reverse {A} (key : A → Z) (l : list A) : list A :=
  foldr (insert_desc key) [] l.

(** Descending by key, ties allowed. *)
Definition desc {A} (key : A → Z) (a b : A) : Prop := key b ≤ key a.

(** ** class FileCheckpoints

    Logging calls are left out: they touch neither files nor results. *)

Definition get_checkpoint_ids (self : FileCheckpoints) : list string :=
  let base_id := "checkpoint" in
  foldl (λ ids i, ids ++ [base_id +:+ Py.str_of_int i])
        [] (seqZ 0 (max_checkpoints self)).

(** find the path to a checkpoint *)
Definition checkpoint_path (self : FileCheckpoints) (checkpoint_id path : string)
  : M string :=
  let path := Py.strip Py.sep path in
  match Py.rsplit1 Py.sep (String Py.sep path) with
  | [parent; name] =>
      let parent := Py.strip Py.sep parent in
      let '(basename, ext) := Py.splitext name in
      let filename := basename +:+ "-" +:+ checkpoint_id +:+ ext in
      let os_path := _get_os_path (fm self) parent in
      let cp_dir := Py.join os_path (checkpoint_dir self) in
      perm_to_403 (ensure_dir_exists cp_dir) ;;
      let cp_path := Py.join cp_dir filename in
      ret cp_path
  | _ => raise ValueError
  end.

Definition get_free_checkpoint_ids (self : FileCheckpoints) (path : string)
  : M (list string) :=
  let path := Py.strip Py.sep path in
  let checkpoint_ids := get_checkpoint_ids self in
  for_each checkpoint_ids
    (λ checkpoint_id free_ids,
       os_path <- checkpoint_path self checkpoint_id path ;;
       is_file <- isfile os_path ;;
       if negb is_file then ret (free_ids ++ [checkpoint_id]) else ret free_ids)
    [].

Definition timedelta (self : FileCheckpoints) (timestamp1 timestamp2 : datetime) : Z :=
  let delta :=
    if timestamp2 <? timestamp1
    then datetime_sub timestamp1 timestamp2
    else datetime_sub timestamp2 timestamp1 in
  days delta * 24 * 60 * 60 + seconds delta.

(** construct the info dict for a given checkpoint *)
Definition checkpoint_model (self : FileCheckpoints) (checkpoint_id os_path : string)
  : M info.t :=
  last_modified <- stat_mtime os_path ;;
  ret (info.mk checkpoint_id last_modified).

(** list the checkpoints for a given file *)
Definition list_checkpoints (self : FileCheckpoints) (path : string)
  : M (list info.t) :=
  let path := Py.strip Py.sep path in
  let checkpoint_ids := get_checkpoint_ids self in
  checkpoints <-
    for_each checkpoint_ids
      (λ checkpoint_id checkpoints,
         os_path <- checkpoint_path self checkpoint_id path ;;
         is_file <- isfile os_path ;;
         if is_file
         then (m <- checkpoint_model self checkpoint_id os_path ;;
               ret (checkpoints ++ [m]))
         else ret checkpoints)
      [] ;;
  ret (sorted_reverse info.last_modified checkpoints).

(** Create a checkpoint. [cur_time] is the clock read by [time.time()];
    [stamp] is the modification time the written file gets. *)
Definition create_checkpoint (self : FileCheckpoints) (contents_mgr : ContentsManager)
    (path : string) (cur_time stamp : datetime) : M info.t :=
  let checkpoint_id := "checkpoint" in
  (* Check if there are free checkpoint ids *)
  free_ids <- get_free_checkpoint_ids self path ;;
  checkpoint_id <-
    (if 0 <? Z.of_nat (length free_ids)
     then index free_ids 0
     else
       used_checkpoints <- list_checkpoints self path ;;
       newest <- index used_checkpoints 0 ;;
       if timedelta self (info.last_modified newest) cur_time
          <? min_seconds_between_checkpoints self
       then (c <- index used_checkpoints 0 ;; ret (info.id c))
       else (c <- index used_checkpoints (-1) ;; ret (info.id c))) ;;
  let src_path := cm_get_os_path contents_mgr path in
  dest_path <- checkpoint_path self checkpoint_id path ;;
  _copy stamp src_path dest_path ;;
  checkpoint_model self checkpoint_id dest_path.

(** Restore a checkpoint. *)
Definition restore_checkpoint (self : FileCheckpoints) (contents_mgr : ContentsManager)
    (checkpoint_id path : string) (stamp : datetime) : M unit :=
  src_path <- checkpoint_path self checkpoint_id path ;;
  let dest_path := cm_get_os_path contents_mgr path in
  _copy stamp src_path dest_path.


Definition no_such_checkpoint (self : FileCheckpoints) (path checkpoint_id : string)
  : M unit :=
  raise (HTTPError 404
           ("Checkpoint does not exist: " +:+ path +:+ "@" +:+ checkpoint_id)).

(** delete a file's checkpoint *)
Definition delete_checkpoint (self : FileCheckpoints) (checkpoint_id path : string)
  : M unit :=
  let path := Py.strip Py.sep path in
  cp_path <- checkpoint_path self checkpoint_id path ;;
  is_file <- isfile cp_path ;;
  (if negb is_file then no_such_checkpoint self path checkpoint_id else ret tt) ;;
  perm_to_403 (unlink cp_path).

(** ** class GenericFileCheckpoints *)

(** What the retrieve operations return. *)
Inductive model : Type :=
| notebook_model (content : string)
| file_model (content format : string).

(** Create a checkpoint from the current content of a file. *)
Definition create_file_checkpoint (self : FileCheckpoints)
    (content format path : string) : M info.t :=
  let path := Py.strip Py.sep path in
  let checkpoint_id := "checkpoint" in
  os_checkpoint_path <- checkpoint_path self checkpoint_id path ;;
  perm_to_403 (_save_file (fm self) os_checkpoint_path content format) ;;
  checkpoint_model self checkpoint_id os_checkpoint_path.

(** Create a checkpoint from the current content of a notebook. *)
Definition create_notebook_checkpoint (self : FileCheckpoints)
    (nb path : string) : M info.t :=
  let path := Py.strip Py.sep path in
  let checkpoint_id := "checkpoint" in
  os_checkpoint_path <- checkpoint_path self checkpoint_id path ;;
  perm_to_403 (_save_notebook (fm self) os_checkpoint_path nb) ;;
  checkpoint_model self checkpoint_id os_checkpoint_path.

(** Get a checkpoint for a notebook. *)
Definition get_notebook_checkpoint (self : FileCheckpoints)
    (checkpoint_id path : string) : M model :=
  let path := Py.strip Py.sep path in
  os_checkpoint_path <- checkpoint_path self checkpoint_id path ;;
  is_file <- isfile os_checkpoint_path ;;
  (if negb is_file then no_such_checkpoint self path checkpoint_id else ret tt) ;;
  nb <- _read_notebook (fm self) os_checkpoint_path ;;
  ret (notebook_model nb).

(** Get a checkpoint for a file. *)
Definition get_file_checkpoint (self : FileCheckpoints)
    (checkpoint_id path : string) : M model :=
  let path := Py.strip Py.sep path in
  os_checkpoint_path <- checkpoint_path self checkpoint_id path ;;
  is_file <- isfile os_checkpoint_path ;;
  (if negb is_file then no_such_checkpoint self path checkpoint_id else ret tt) ;;
  '(content, format) <- _read_file (fm self) os_checkpoint_path ;;
  ret (file_model content format).

(** ** A concrete world for examples *)

Definition write_file (stamp : datetime) (p c : string) : M unit :=
  λ fs, (Ok tt, with_files (insert p {| st_mtime := stamp; content := c |}) fs).

Definition read_text (p : string) : M string :=
  λ fs, match files fs !! p with
        | Some f => (Ok (content f), fs)
        | None => (Raise (OSError ENOENT), fs)
        end.

(** A file manager rooted at [/srv] that stores contents verbatim. *)
Definition srv_mixin : FileManagerMixin :=
  {| _get_os_path := λ p, Py.join "/srv" p;
     _read_file := λ p, c <- read_text p ;; ret (c, "text");
     _read_notebook := read_text;
     _save_file := λ p c _, write_file 0 p c;
     _save_notebook := λ p nb, write_file 0 p nb |}.

Definition srv_mgr : ContentsManager :=
  {| cm_get_os_path := _get_os_path srv_mixin |}.

Definition sec (n : Z) : datetime := n * 1000000.

(** Pool of two, debounce of a minute. *)
Definition two_slots : FileCheckpoints :=
  new_FileCheckpoints
    {| c_checkpoint_dir := None;
       c_max_checkpoints := Some 2;
       c_min_seconds_between_checkpoints := None |}
    srv_mixin.

Definition fs_doc : FS :=
  {| files := {[ "/srv/a/nb.ipynb" := {| st_mtime := 0; content := "{}" |} ]};
     dirs := {[ "/srv"; "/srv/a" ]} |}.

Definition doc_file : file := {| st_mtime := 0; content := "{}" |}.

(** Both slots of the pool of two taken: [checkpoint0] written at second 0,
    [checkpoint1] at second 5. *)
Definition fs_full : FS :=
  {| files :=
       {[ "/srv/a/nb.ipynb" := doc_file;
          "/srv/a/.ipynb_checkpoints/nb-checkpoint0.ipynb"
            := {| st_mtime := sec 0; content := "{}" |};
          "/srv/a/.ipynb_checkpoints/nb-checkpoint1.ipynb"
            := {| st_mtime := sec 5; content := "{}" |} ]};
     dirs := {[ "/srv"; "/srv/a"; "/srv/a/.ipynb_checkpoints" ]} |}.

(** Both slots hold a checkpoint written at second 7. *)
Definition fs_tie : FS :=
  {| files :=
       {[ "/srv/a/.ipynb_checkpoints/nb-checkpoint0.ipynb"
            := {| st_mtime := sec 7; content := "{}" |};
          "/srv/a/.ipynb_checkpoints/nb-checkpoint1.ipynb"
            := {| st_mtime := sec 7; content := "{}" |} ]};
     dirs := {[ "/srv"; "/srv/a"; "/srv/a/.ipynb_checkpoints" ]} |}.

(** ** Path derivation, in the words of the specification *)

(** Parent directory and file name of a normalised document path: the file
    name is what follows the last separator, the parent directory what
    precedes it; a path without a separator has the empty parent. *)
Fixpoint parent_and_name (p : string) : string * string :=
  match p with
  | EmptyString => (EmptyString, EmptyString)
  | String a p' =>
      if Py.occurs Py.sep p'
      then (String a (parent_and_name p').1, (parent_and_name p').2)
      else if Ascii.eqb a Py.sep then (EmptyString, p')
      else (EmptyString, String a p')
  end.

(** The checkpoint directory of a document: the configured directory name,
    resolved relative to the document's (normalised) parent directory. *)
Definition checkpoint_dir_of (self : FileCheckpoints) (path : string) : string :=
  let parent := (parent_and_name (Py.strip Py.sep path)).1 in
  Py.join (_get_os_path (fm self) (Py.strip Py.sep parent)) (checkpoint_dir self).

(** The checkpoint file name [{base}-{slot_id}{extension}]. *)
Definition checkpoint_file_name (checkpoint_id path : string) : string :=
  let name := (parent_and_name (Py.strip Py.sep path)).2 in
  let base := (Py.splitext name).1 in
  let extension := (Py.splitext name).2 in
  base +:+ "-" +:+ checkpoint_id +:+ extension.

(** Where the checkpoint file of a slot lives. *)
Definition checkpoint_location (self : FileCheckpoints) (checkpoint_id path : string)
  : string :=
  Py.join (checkpoint_dir_of self path) (checkpoint_file_name checkpoint_id path).

(** The file system after a directory has been ensured. *)
Definition mkdir (d : string) (fs : FS) : FS :=
  {| files := files fs; dirs := {[ d ]} ∪ dirs fs |}.

(** ** The slot pool and what is stored in it *)

(** The slot id with index [i]. *)
Definition slot_id (i : Z) : string := "checkpoint" +:+ Py.str_of_int i.

(** The file, if any, in a slot of a document. *)
Definition slot_file (self : FileCheckpoints) (path : string) (fs : FS)
    (checkpoint_id : string) : option file :=
  files fs !! checkpoint_location self checkpoint_id path.

(** The slots of a document without a file, in pool order. *)
Definition free_slots (self : FileCheckpoints) (path : string) (fs : FS) : list string :=
  filter (λ c, ¬ is_Some (slot_file self path fs c)) (get_checkpoint_ids self).

(** The records of the slots of a document with a file, in pool order. *)
Definition slot_records (self : FileCheckpoints) (path : string) (fs : FS)
  : list info.t :=
  omap (λ c, (λ f, info.mk c (st_mtime f)) <$> slot_file self path fs c)
       (get_checkpoint_ids self).

(** The file system after the loop over the pool has run: the checkpoint
    directory has been ensured once per slot. *)
Definition touched {A} (l : list A) (d : string) (fs : FS) : FS :=
  match l with [] => fs | _ => mkdir d fs end.

(** ** Notions for stating the claims *)

(** The slot that [create_checkpoint] settles on; [None] when the pool is
    empty, where indexing the empty list of used checkpoints fails. *)
Definition chosen_slot (self : FileCheckpoints) (path : string)
    (cur_time : datetime) (fs : FS) : option string :=
  match free_slots self path fs with
  | c :: _ => Some c
  | [] =>
      let used := sorted_reverse info.last_modified (slot_records self path fs) in
      match head used, last used with
      | Some newest, Some oldest =>
          Some (if timedelta self (info.last_modified newest) cur_time
                   <? min_seconds_between_checkpoints self
                then info.id newest else info.id oldest)
      | _, _ => None
      end
  end.

(** The copy into the chosen slot and the record that is returned. *)
Definition write_slot (self : FileCheckpoints) (contents_mgr : ContentsManager)
    (path : string) (stamp : datetime) (c : string) (fs : FS) : result info.t * FS :=
  match files fs !! cm_get_os_path contents_mgr path with
  | Some src =>
      (Ok (info.mk c stamp),
       with_files (insert (checkpoint_location self c path)
                          {| st_mtime := stamp; content := content src |})
                  (mkdir (checkpoint_dir_of self path) fs))
  | None => (Raise (OSError ENOENT), mkdir (checkpoint_dir_of self path) fs)
  end.

(** [r] is the record of an existing checkpoint of the document. *)
Definition is_checkpoint (self : FileCheckpoints) (path : string) (fs : FS)
    (r : info.t) : Prop :=
  ∃ i f, 0 ≤ i < max_checkpoints self
         ∧ info.id r = slot_id i
         ∧ slot_file self path fs (slot_id i) = Some f
         ∧ info.last_modified r = st_mtime f.

Definition most_recent (self : FileCheckpoints) (path : string) (fs : FS)
    (r : info.t) : Prop :=
  is_checkpoint self path fs r
  ∧ ∀ r', is_checkpoint self path fs r' → info.last_modified r' ≤ info.last_modified r.

Definition least_recent (self : FileCheckpoints) (path : string) (fs : FS)
    (r : info.t) : Prop :=
  is_checkpoint self path fs r
  ∧ ∀ r', is_checkpoint self path fs r' → info.last_modified r ≤ info.last_modified r'.

(** Slot [i] is the lowest-indexed slot without a checkpoint file. *)
Definition lowest_free (self : FileCheckpoints) (path : string) (fs : FS) (i : Z) : Prop :=
  0 ≤ i < max_checkpoints self
  ∧ slot_file self path fs (slot_id i) = None
  ∧ ∀ j, 0 ≤ j < i → is_Some (slot_file self path fs (slot_id j)).

(** Every slot of the (non-empty) pool holds a checkpoint file. *)
Definition pool_full (self : FileCheckpoints) (path : string) (fs : FS) : Prop :=
  0 < max_checkpoints self
  ∧ ∀ j, 0 ≤ j < max_checkpoints self → is_Some (slot_file self path fs (slot_id j)).

(** The call copies the live document [src] into slot [c] and returns that
    slot's record. *)
Definition creates_in (self : FileCheckpoints) (contents_mgr : ContentsManager)
    (path : string) (cur_time stamp : datetime) (fs : FS) (src : file) (c : string)
  : Prop :=
  ∃ fs', create_checkpoint self contents_mgr path cur_time stamp fs
         = (Ok (info.mk c stamp), fs')
         ∧ files fs'
           = <[checkpoint_location self c path
               := {| st_mtime := stamp; content := content src |}]> (files fs).

(** One [create_checkpoint] call per pair (clock reading, time stamp of the
    written file), on one document. *)
Fixpoint run_creates (self : FileCheckpoints) (contents_mgr : ContentsManager)
    (path : string) (calls : list (datetime * datetime)) (fs : FS) : FS :=
  match calls with
  | [] => fs
  | (cur_time, stamp) :: calls' =>
      run_creates self contents_mgr path calls'
        (create_checkpoint self contents_mgr path cur_time stamp fs).2
  end.

(** What the calls of [run_creates] return, in order. *)
Fixpoint create_results (self : FileCheckpoints) (contents_mgr : ContentsManager)
    (path : string) (calls : list (datetime * datetime)) (fs : FS)
  : list (result info.t) :=
  match calls with
  | [] => []
  | (cur_time, stamp) :: calls' =>
      (create_checkpoint self contents_mgr path cur_time stamp fs).1
      :: create_results self contents_mgr path calls'
           (create_checkpoint self contents_mgr path cur_time stamp fs).2
  end.

(** The message of the 404 that [no_such_checkpoint] raises. *)
Definition not_found_message (path checkpoint_id : string) : string :=
  "Checkpoint does not exist: " +:+ path +:+ "@" +:+ checkpoint_id.

(** * Facts *)

(** ** The primitives on examples *)

Example strip_ex : Py.strip Py.sep "//a/b.txt/" = "a/b.txt".
Proof. reflexivity. Qed.
Example rsplit1_ex : Py.rsplit1 Py.sep "/a/b.txt" = ["/a"; "b.txt"].
Proof. reflexivity. Qed.
Example rsplit1_none : Py.rsplit1 Py.sep "b.txt" = ["b.txt"].
Proof. reflexivity. Qed.
Example splitext_ex1 : Py.splitext "a.tar.gz" = ("a.tar", ".gz").
Proof. reflexivity. Qed.
Example splitext_ex2 : Py.splitext ".bashrc" = (".bashrc", "").
Proof. reflexivity. Qed.
Example splitext_ex3 : Py.splitext "..x.y" = ("..x", ".y").
Proof. reflexivity. Qed.
Example splitext_ex4 : Py.splitext "a.b/c" = ("a.b/c", "").
Proof. reflexivity. Qed.
Example splitext_ex5 : Py.splitext "nb." = ("nb", ".").
Proof. reflexivity. Qed.
Example join_ex1 : Py.join "/srv/a" ".ipynb_checkpoints" = "/srv/a/.ipynb_checkpoints".
Proof. reflexivity. Qed.
Example join_ex2 : Py.join "" "x" = "x" /\ Py.join "a/" "x" = "a/x" /\ Py.join "a" "/x" = "/x".
Proof. repeat split; reflexivity. Qed.
Example str_of_int_ex : Py.str_of_int 12 = "12".
Proof. vm_compute. reflexivity. Qed.

(** ** The operations on examples *)

Example checkpoint_path_ex :
  (checkpoint_path two_slots "checkpoint1" "/a/nb.ipynb" fs_doc).1
  = Ok "/srv/a/.ipynb_checkpoints/nb-checkpoint1.ipynb".
Proof. by vm_compute. Qed.

Example checkpoint_path_no_parent :
  (checkpoint_path two_slots "checkpoint0" "notes.tar.gz" fs_doc).1
  = Ok "/srv/.ipynb_checkpoints/notes.tar-checkpoint0.gz".
Proof. by vm_compute. Qed.

(** Creates at seconds 0, 5, 10 and 1000 on a pool of two with a debounce
    of a minute: first free slot, second free slot, the newest slot again,
    then the oldest slot. *)
Example four_creates :
  let create t fs := create_checkpoint two_slots srv_mgr "a/nb.ipynb" (sec t) (sec t) fs in
  let r1 := create 0 fs_doc in
  let r2 := create 5 r1.2 in
  let r3 := create 10 r2.2 in
  let r4 := create 1000 r3.2 in
  r1.1 = Ok (info.mk "checkpoint0" (sec 0))
  ∧ r2.1 = Ok (info.mk "checkpoint1" (sec 5))
  ∧ r3.1 = Ok (info.mk "checkpoint1" (sec 10))
  ∧ r4.1 = Ok (info.mk "checkpoint0" (sec 1000))
  ∧ (list_checkpoints two_slots "a/nb.ipynb" r4.2).1
    = Ok [info.mk "checkpoint0" (sec 1000); info.mk "checkpoint1" (sec 10)].
Proof. by vm_compute. Qed.

Example timedelta_ex :
  timedelta two_slots 1999999 0 = 1 ∧ timedelta two_slots 0 86400000001 = 86400.
Proof. by vm_compute. Qed.

(** ** Facts about the string primitives *)

Module PyFacts.
Import Py.

Lemma str_app_cons a (s t : string) : String a s +:+ t = String a (s +:+ t).
Proof. reflexivity. Qed.

Lemma str_app_nil_r (s : string) : s +:+ "" = s.
Proof. induction s as [|a s IH]; [done|]. by rewrite str_app_cons, IH. Qed.

Lemma str_length_app (s t : string) :
  String.length (s +:+ t) = (String.length s + String.length t)%nat.
Proof. induction s as [|a s IH]; [done|]. rewrite str_app_cons. simpl. by rewrite IH. Qed.

Lemma take_drop n s : take n s +:+ drop n s = s.
Proof.
  revert s; induction n as [|n IH]; intros [|a s]; try reflexivity.
  change (String a (take n s +:+ drop n s) = String a s). by rewrite IH.
Qed.

Lemma rfind_lower c s : -1 ≤ rfind c s.
Proof.
  induction s as [|a s IH]; simpl; [lia|].
  destruct (0 <=? rfind c s) eqn:E; [lia|]. destruct (Ascii.eqb a c); lia.
Qed.

Lemma rfind_occurs c s : (0 <=? rfind c s) = occurs c s.
Proof.
  induction s as [|a s IH]; simpl; [done|].
  rewrite <- IH. destruct (0 <=? rfind c s) eqn:E.
  - rewrite orb_true_r. apply Z.leb_le in E. apply Z.leb_le. lia.
  - rewrite orb_false_r. by destruct (Ascii.eqb a c).
Qed.

Lemma rfind_absent c s : occurs c s = false → rfind c s = -1.
Proof.
  intros H. rewrite <- rfind_occurs in H. apply Z.leb_gt in H.
  pose proof (rfind_lower c s). lia.
Qed.

Lemma rfind_cons_present c a s :
  occurs c s = true → rfind c (String a s) = rfind c s + 1.
Proof. intros H. simpl. by rewrite rfind_occurs, H. Qed.

Lemma rfind_cons_absent c s : occurs c s = false → rfind c (String c s) = 0.
Proof.
  intros H. simpl. rewrite rfind_occurs, H. by rewrite Ascii.eqb_refl.
Qed.

Lemma occurs_drop_rfind c s : occurs c (drop (Z.to_nat (rfind c s + 1)) s) = false.
Proof.
  induction s as [|a s IH]; [done|].
  destruct (occurs c s) eqn:E.
  - rewrite rfind_cons_present by done.
    assert (0 ≤ rfind c s) by (apply Z.leb_le; by rewrite rfind_occurs).
    replace (Z.to_nat (rfind c s + 1 + 1)) with (S (Z.to_nat (rfind c s + 1))) by lia.
    exact IH.
  - simpl. rewrite rfind_occurs, E.
    destruct (Ascii.eqb a c) eqn:Ea; simpl; [done|]. by rewrite Ea, E.
Qed.

Lemma rstrip_idemp c s : rstrip c (rstrip c s) = rstrip c s.
Proof.
  induction s as [|a s IH]; [done|]. simpl.
  destruct (rstrip c s) as [|b r] eqn:E.
  - destruct (Ascii.eqb a c) eqn:Ea; simpl; [done|]. by rewrite Ea.
  - change (rstrip c (String a (String b r))) with
      (match rstrip c (String b r) with
       | EmptyString => if Ascii.eqb a c then EmptyString else String a EmptyString
       | r' => String a r'
       end).
    by rewrite IH.
Qed.

Lemma lstrip_head c s : startswith c (lstrip c s) = false.
Proof.
  induction s as [|a s IH]; [done|]. simpl.
  destruct (Ascii.eqb a c) eqn:E; [done|]. simpl. by rewrite E.
Qed.

Lemma rstrip_head c s : startswith c s = false → startswith c (rstrip c s) = false.
Proof.
  destruct s as [|a s]; [done|]. simpl. intros E.
  destruct (rstrip c s); simpl; by rewrite ?E.
Qed.

Lemma lstrip_id c s : startswith c s = false → lstrip c s = s.
Proof. destruct s as [|a s]; [done|]. simpl. by intros ->. Qed.

Lemma strip_head c s : startswith c (strip c s) = false.
Proof. apply rstrip_head, lstrip_head. Qed.

Lemma strip_idemp c s : strip c (strip c s) = strip c s.
Proof.
  unfold strip at 1. rewrite lstrip_id by apply strip_head.
  apply rstrip_idemp.
Qed.

Lemma strip_cons c s : strip c (String c s) = strip c s.
Proof. unfold strip. simpl. by rewrite Ascii.eqb_refl. Qed.

Lemma startswith_occurs c s : startswith c s = true → occurs c s = true.
Proof. destruct s as [|a s]; [done|]. simpl. by intros ->. Qed.

Lemma startswith_take c n s : startswith c (take n s) = true → startswith c s = true.
Proof. destruct n, s; done. Qed.

Lemma startswith_app c s t :
  startswith c (s +:+ t) = if String.eqb s "" then startswith c t else startswith c s.
Proof. by destruct s. Qed.

(** The base name that [splitext] returns starts like the name itself. *)
Lemma splitext_app p : (splitext p).1 +:+ (splitext p).2 = p.
Proof.
  unfold splitext. case_match; simpl; [apply take_drop|apply str_app_nil_r].
Qed.

Lemma splitext_head p : occurs sep p = false → startswith sep (splitext p).1 = false.
Proof.
  intros H. unfold splitext. case_match; simpl.
  - destruct (startswith sep (take _ p)) eqn:E; [|done].
    apply startswith_take, startswith_occurs in E. congruence.
  - destruct (startswith sep p) eqn:E; [|done].
    apply startswith_occurs in E. congruence.
Qed.

Lemma str_app_inj_r (s t u : string) : s +:+ u = t +:+ u → s = t.
Proof.
  revert t; induction s as [|a s IH]; intros [|b t] H; try done.
  - exfalso. apply (f_equal String.length) in H.
    rewrite !str_length_app in H. simpl in H. lia.
  - exfalso. apply (f_equal String.length) in H.
    rewrite !str_length_app in H. simpl in H. lia.
  - rewrite !str_app_cons in H. injection H as -> H. by rewrite (IH _ H).
Qed.

(** Joining a directory with names that do not start with the separator
    keeps different names apart. *)
Lemma join_inj a b1 b2 :
  startswith sep b1 = false → startswith sep b2 = false →
  join a b1 = join a b2 → b1 = b2.
Proof.
  unfold join. intros -> ->. destruct (String.eqb a "" || endswith sep a).
  - apply String.app_inj.
  - intros H. apply String.app_inj in H. by injection H.
Qed.

End PyFacts.

Section PathFacts.
Import Py PyFacts.

Lemma parent_and_name_absent p :
  occurs sep p = false → parent_and_name p = (EmptyString, p).
Proof.
  destruct p as [|a p]; [done|]. simpl.
  destruct (Ascii.eqb a sep) eqn:Ea; simpl; [done|]. by intros ->.
Qed.

Lemma parent_and_name_present p :
  occurs sep p = true →
  parent_and_name p
  = (take (Z.to_nat (rfind sep p)) p, drop (Z.to_nat (rfind sep p + 1)) p).
Proof.
  induction p as [|a p IH]; [done|]. intros Hocc.
  destruct (occurs sep p) eqn:E.
  - rewrite rfind_cons_present by done.
    assert (0 ≤ rfind sep p) by (apply Z.leb_le; by rewrite rfind_occurs).
    replace (Z.to_nat (rfind sep p + 1)) with (S (Z.to_nat (rfind sep p))) by lia.
    replace (Z.to_nat (rfind sep p + 1 + 1))
      with (S (Z.to_nat (rfind sep p + 1))) by lia.
    replace (S (Z.to_nat (rfind sep p))) with (Z.to_nat (rfind sep p + 1)) at 2 by lia.
    simpl. rewrite E, (IH eq_refl). simpl.
    by replace (Z.to_nat (rfind sep p + 1)) with (S (Z.to_nat (rfind sep p))) by lia.
  - simpl in Hocc. rewrite E, orb_false_r in Hocc.
    apply Ascii.eqb_eq in Hocc as ->.
    rewrite rfind_cons_absent by done. simpl. by rewrite E.
Qed.

Lemma name_no_sep p : occurs sep (parent_and_name p).2 = false.
Proof.
  destruct (occurs sep p) eqn:E.
  - rewrite parent_and_name_present by done. apply occurs_drop_rfind.
  - by rewrite parent_and_name_absent.
Qed.

(** What [('/' + path).rsplit('/', 1)] unpacks to. *)
Lemma rsplit1_rooted p :
  ∃ parent, rsplit1 sep (String sep p) = [parent; (parent_and_name p).2]
            ∧ strip sep parent = strip sep (parent_and_name p).1.
Proof.
  unfold rsplit1. destruct (occurs sep p) eqn:E.
  - rewrite rfind_cons_present, parent_and_name_present by done.
    assert (0 ≤ rfind sep p) by (apply Z.leb_le; by rewrite rfind_occurs).
    destruct (rfind sep p + 1 <? 0) eqn:El; [lia|].
    replace (Z.to_nat (rfind sep p + 1)) with (S (Z.to_nat (rfind sep p))) by lia.
    replace (Z.to_nat (rfind sep p + 1 + 1))
      with (S (S (Z.to_nat (rfind sep p)))) by lia.
    eexists. split; [reflexivity|]. simpl. apply strip_cons.
  - rewrite rfind_cons_absent, parent_and_name_absent by done. simpl.
    by exists EmptyString.
Qed.

Lemma checkpoint_path_run self checkpoint_id path fs :
  checkpoint_path self checkpoint_id path fs
  = (Ok (checkpoint_location self checkpoint_id path),
     mkdir (checkpoint_dir_of self path) fs).
Proof.
  unfold checkpoint_path.
  destruct (rsplit1_rooted (strip sep path)) as (parent & -> & Hp).
  unfold checkpoint_location, checkpoint_dir_of, checkpoint_file_name.
  rewrite Hp. by destruct (splitext _).
Qed.

Lemma checkpoint_path_strip self checkpoint_id path :
  checkpoint_location self checkpoint_id (strip sep path)
  = checkpoint_location self checkpoint_id path.
Proof.
  unfold checkpoint_location, checkpoint_dir_of, checkpoint_file_name.
  by rewrite strip_idemp.
Qed.

Lemma checkpoint_dir_strip self path :
  checkpoint_dir_of self (strip sep path) = checkpoint_dir_of self path.
Proof. unfold checkpoint_dir_of. by rewrite strip_idemp. Qed.

Lemma file_name_head checkpoint_id path :
  startswith sep (checkpoint_file_name checkpoint_id path) = false.
Proof.
  unfold checkpoint_file_name. rewrite startswith_app.
  destruct (String.eqb _ "") eqn:E; [done|].
  apply splitext_head, name_no_sep.
Qed.

(** Different slot ids of one document live in different files. *)
Lemma checkpoint_location_inj self path id1 id2 :
  checkpoint_location self id1 path = checkpoint_location self id2 path →
  id1 = id2.
Proof.
  unfold checkpoint_location. intros H.
  apply join_inj in H; try apply file_name_head.
  unfold checkpoint_file_name in H.
  apply String.app_inj in H. change ("-" +:+ ?x) with (String "-" x) in H.
  injection H as H. by apply str_app_inj_r in H.
Qed.

End PathFacts.

Section PoolFacts.
Import Py PyFacts.

Lemma foldl_snoc {A B} (f : A → B) (l : list A) (acc : list B) :
  foldl (λ ids i, ids ++ [f i]) acc l = acc ++ (f <$> l).
Proof.
  revert acc; induction l as [|x l IH]; intros acc; simpl.
  - by rewrite app_nil_r.
  - by rewrite IH, <- app_assoc.
Qed.

Lemma get_checkpoint_ids_slots self :
  get_checkpoint_ids self = slot_id <$> seqZ 0 (max_checkpoints self).
Proof. unfold get_checkpoint_ids. by rewrite foldl_snoc. Qed.

Lemma length_get_checkpoint_ids self :
  length (get_checkpoint_ids self) = Z.to_nat (max_checkpoints self).
Proof. by rewrite get_checkpoint_ids_slots, length_fmap, length_seqZ. Qed.

Lemma elem_of_get_checkpoint_ids self c :
  c ∈ get_checkpoint_ids self ↔ ∃ i, 0 ≤ i < max_checkpoints self ∧ c = slot_id i.
Proof.
  rewrite get_checkpoint_ids_slots, list_elem_of_fmap. split.
  - intros (i & -> & Hi). apply elem_of_seqZ in Hi. exists i. split; [lia|done].
  - intros (i & Hi & ->). exists i. split; [done|]. apply elem_of_seqZ. lia.
Qed.

Lemma lookup_get_checkpoint_ids self (i : nat) c :
  get_checkpoint_ids self !! i = Some c
  ↔ Z.of_nat i < max_checkpoints self ∧ c = slot_id (Z.of_nat i).
Proof.
  rewrite get_checkpoint_ids_slots, list_lookup_fmap, fmap_Some. split.
  - intros (j & Hj & ->). apply lookup_seqZ in Hj as [-> Hj].
    by rewrite Z.add_0_l.
  - intros [Hi ->]. exists (Z.of_nat i). split; [|done].
    apply lookup_seqZ. split; [lia|done].
Qed.

Lemma mkdir_idemp d fs : mkdir d (mkdir d fs) = mkdir d fs.
Proof. unfold mkdir. simpl. f_equal. by rewrite (assoc_L (∪)), union_idemp_L. Qed.

Lemma touched_mkdir {A} (l : list A) d fs : touched l d (mkdir d fs) = mkdir d fs.
Proof. destruct l; [done|apply mkdir_idemp]. Qed.

Lemma files_touched {A} (l : list A) d fs : files (touched l d fs) = files fs.
Proof. by destruct l. Qed.

Lemma slot_file_mkdir self path d fs c :
  slot_file self path (mkdir d fs) c = slot_file self path fs c.
Proof. done. Qed.

Lemma free_loop self path fs (l : list string) (acc : list string) :
  for_each l
    (λ checkpoint_id free_ids,
       os_path <- checkpoint_path self checkpoint_id (strip sep path) ;;
       is_file <- isfile os_path ;;
       if negb is_file then ret (free_ids ++ [checkpoint_id]) else ret free_ids)
    acc fs
  = (Ok (acc ++ filter (λ c, ¬ is_Some (slot_file self path fs c)) l),
     touched l (checkpoint_dir_of self path) fs).
Proof.
  revert acc fs; induction l as [|c l IH]; intros acc fs.
  - simpl. unfold ret. by rewrite app_nil_r.
  - cbn [for_each]. unfold bind at 1. unfold bind at 1.
    rewrite checkpoint_path_run, checkpoint_path_strip, checkpoint_dir_strip.
    unfold bind at 1, isfile at 1. cbn [files mkdir].
    rewrite filter_cons. fold (slot_file self path fs c).
    destruct (decide (¬ is_Some (slot_file self path fs c))) as [Hn|Hn].
    + rewrite bool_decide_eq_false_2 by done. cbn [negb]. unfold ret at 1.
      rewrite IH, touched_mkdir. cbn [touched]. by rewrite <- app_assoc.
    + rewrite bool_decide_eq_true_2 by (by apply dec_stable). cbn [negb].
      unfold ret at 1. by rewrite IH, touched_mkdir.
Qed.

Lemma get_free_checkpoint_ids_run self path fs :
  get_free_checkpoint_ids self path fs
  = (Ok (free_slots self path fs),
     touched (get_checkpoint_ids self) (checkpoint_dir_of self path) fs).
Proof. unfold get_free_checkpoint_ids. by rewrite free_loop. Qed.

Lemma list_loop self path fs (l : list string) (acc : list info.t) :
  for_each l
    (λ checkpoint_id checkpoints,
       os_path <- checkpoint_path self checkpoint_id (strip sep path) ;;
       is_file <- isfile os_path ;;
       if is_file
       then (m <- checkpoint_model self checkpoint_id os_path ;;
             ret (checkpoints ++ [m]))
       else ret checkpoints)
    acc fs
  = (Ok (acc ++ omap (λ c, (λ f, info.mk c (st_mtime f))
                             <$> slot_file self path fs c) l),
     touched l (checkpoint_dir_of self path) fs).
Proof.
  revert acc fs; induction l as [|c l IH]; intros acc fs.
  - simpl. unfold ret. by rewrite app_nil_r.
  - cbn [for_each]. unfold bind at 1. unfold bind at 1.
    rewrite checkpoint_path_run, checkpoint_path_strip, checkpoint_dir_strip.
    unfold bind at 1, isfile at 1. cbn [files mkdir omap list_omap].
    fold (slot_file self path fs c).
    destruct (slot_file self path fs c) as [f|] eqn:Hf.
    + rewrite bool_decide_eq_true_2 by done.
      unfold checkpoint_model, bind at 1, bind at 1, stat_mtime. cbn [files mkdir].
      unfold slot_file in Hf. rewrite Hf. unfold ret at 1, ret at 1.
      rewrite IH, touched_mkdir. cbn [fmap option_fmap option_map].
      by rewrite <- app_assoc.
    + rewrite bool_decide_eq_false_2 by (by intros [? ?]).
      unfold ret at 1. by rewrite IH, touched_mkdir.
Qed.

Lemma list_checkpoints_run self path fs :
  list_checkpoints self path fs
  = (Ok (sorted_reverse info.last_modified (slot_records self path fs)),
     touched (get_checkpoint_ids self) (checkpoint_dir_of self path) fs).
Proof. unfold list_checkpoints. unfold bind at 1. by rewrite list_loop. Qed.

End PoolFacts.

(** ** The descending stable sort *)

Section SortFacts.
Context {A : Type} (key : A → Z).

Lemma insert_desc_perm x l : insert_desc key x l ≡ₚ x :: l.
Proof.
  induction l as [|y l IH]; simpl; [done|].
  destruct (key x <? key y); [|done].
  rewrite IH. apply Permutation_swap.
Qed.

Lemma sorted_reverse_perm l : sorted_reverse key l ≡ₚ l.
Proof.
  induction l as [|x l IH]; simpl; [done|].
  by rewrite insert_desc_perm, IH.
Qed.

Lemma insert_desc_sorted x l :
  StronglySorted (desc key) l → StronglySorted (desc key) (insert_desc key x l).
Proof.
  induction 1 as [|y l Hl IH Hy]; simpl.
  - repeat constructor.
  - destruct (key x <? key y) eqn:E.
    + apply Z.ltb_lt in E. constructor; [done|].
      rewrite insert_desc_perm. constructor; [unfold desc; lia|done].
    + apply Z.ltb_ge in E. constructor; [by constructor|].
      constructor; [done|].
      eapply Forall_impl; [exact Hy|]. unfold desc. intros; simpl in *; lia.
Qed.

Lemma sorted_reverse_sorted l : StronglySorted (desc key) (sorted_reverse key l).
Proof.
  induction l as [|x l IH]; simpl; [constructor|].
  by apply insert_desc_sorted.
Qed.

(** Stability: among the items of one key, the order of the input is kept. *)
Lemma insert_desc_filter k x l :
  filter (λ y, key y = k) (insert_desc key x l)
  = filter (λ y, key y = k) (x :: l).
Proof.
  induction l as [|y l IH]; simpl; [done|].
  destruct (key x <? key y) eqn:E; [|done].
  apply Z.ltb_lt in E.
  rewrite (filter_cons _ y), IH, !filter_cons.
  destruct (decide (key y = k)), (decide (key x = k)); try done. lia.
Qed.

Lemma sorted_reverse_stable k l :
  filter (λ y, key y = k) (sorted_reverse key l) = filter (λ y, key y = k) l.
Proof.
  induction l as [|x l IH]; simpl; [done|].
  by rewrite insert_desc_filter, !filter_cons, IH.
Qed.

Lemma sorted_reverse_head l a :
  head (sorted_reverse key l) = Some a → a ∈ l ∧ ∀ b, b ∈ l → key b ≤ key a.
Proof.
  intros H. pose proof (sorted_reverse_sorted l) as Hs.
  pose proof (sorted_reverse_perm l) as Hp.
  destruct (sorted_reverse key l) as [|a' s]; simplify_eq/=.
  split; [rewrite <- Hp; left|]. intros b Hb. rewrite <- Hp in Hb.
  apply StronglySorted_inv in Hs as [_ Hs].
  apply elem_of_cons in Hb as [->|Hb]; [lia|].
  by eapply Forall_forall in Hs.
Qed.

Lemma sorted_reverse_last l a :
  last (sorted_reverse key l) = Some a → a ∈ l ∧ ∀ b, b ∈ l → key a ≤ key b.
Proof.
  intros H. pose proof (sorted_reverse_sorted l) as Hs.
  pose proof (sorted_reverse_perm l) as Hp.
  apply last_Some in H as [s H]. rewrite H in Hs, Hp.
  split; [rewrite <- Hp; set_solver|]. intros b Hb. rewrite <- Hp in Hb.
  apply elem_of_app in Hb as [Hb|Hb].
  - eapply (StronglySorted_app_1_elem_of (desc key) s [a] b a); [done|done|set_solver].
  - apply list_elem_of_singleton in Hb as ->. lia.
Qed.

End SortFacts.

(** ** Elapsed time *)

Lemma whole_seconds (us : Z) :
  0 ≤ us →
  days (datetime_sub us 0) * 24 * 60 * 60 + seconds (datetime_sub us 0) = us / 1000000.
Proof.
  intros Hus. unfold datetime_sub. cbn [days seconds]. rewrite Z.sub_0_r.
  assert (86400000000 ≠ 0) as Hnz by lia.
  pose proof (Z.div_mod us 86400000000 Hnz) as Hdm.
  rewrite Hdm at 3.
  replace (86400000000 * (us / 86400000000) + us mod 86400000000)
    with ((us / 86400000000 * 86400) * 1000000 + us mod 86400000000) by lia.
  rewrite Z.div_add_l by lia. lia.
Qed.

Lemma datetime_sub_shift (a b : datetime) : datetime_sub a b = datetime_sub (a - b) 0.
Proof. unfold datetime_sub. by rewrite Z.sub_0_r. Qed.

Lemma timedelta_abs self (a b : datetime) :
  timedelta self a b = Z.abs (a - b) / 1000000.
Proof.
  unfold timedelta. destruct (b <? a) eqn:E.
  - apply Z.ltb_lt in E. rewrite datetime_sub_shift, whole_seconds by lia.
    f_equal. lia.
  - apply Z.ltb_ge in E. rewrite datetime_sub_shift, whole_seconds by lia.
    f_equal. lia.
Qed.

(** With a whole number of seconds as threshold, truncating the elapsed time
    does not change the comparison. *)
Lemma timedelta_lt self (a b : datetime) (threshold : Z) :
  timedelta self a b < threshold ↔ Z.abs (a - b) < threshold * 1000000.
Proof.
  rewrite timedelta_abs. split; intros H.
  - apply Z.nle_gt. intros Hle. apply Z.nle_gt in H. apply H.
    apply Z.div_le_lower_bound; lia.
  - apply Z.div_lt_upper_bound; lia.
Qed.

Section CreateFacts.
Import Py PyFacts.

Lemma bind_run {A B} (m : M A) (k : A → M B) fs :
  bind m k fs
  = match m fs with
    | (Ok a, fs') => k a fs'
    | (Raise e, fs') => (Raise e, fs')
    end.
Proof. reflexivity. Qed.

Lemma index_first {A} (l : list A) fs :
  index l 0 fs
  = match head l with Some a => (Ok a, fs) | None => (Raise IndexError, fs) end.
Proof.
  unfold index. cbn [Z.ltb Z.compare]. change (Z.to_nat 0) with 0%nat.
  rewrite head_lookup. by destruct (l !! 0%nat).
Qed.

Lemma index_last {A} (l : list A) fs :
  index l (-1) fs
  = match last l with Some a => (Ok a, fs) | None => (Raise IndexError, fs) end.
Proof.
  unfold index. cbn [Z.ltb Z.compare]. rewrite last_lookup.
  destruct l as [|x l]; [done|].
  destruct (Z.of_nat (length (x :: l)) + -1 <? 0) eqn:E.
  { apply Z.ltb_lt in E. simpl in E. lia. }
  replace (Z.to_nat (Z.of_nat (length (x :: l)) + -1)) with (pred (length (x :: l)))
    by (simpl; lia).
  by destruct ((x :: l) !! pred (length (x :: l))).
Qed.

Lemma mkdir_touched {A} (l : list A) d fs : mkdir d (touched l d fs) = mkdir d fs.
Proof. destruct l; [done|apply mkdir_idemp]. Qed.

Lemma touched_idemp {A} (l : list A) d fs : touched l d (touched l d fs) = touched l d fs.
Proof. destruct l; [done|apply mkdir_idemp]. Qed.

Lemma free_slots_touched {A} self path (l : list A) d fs :
  free_slots self path (touched l d fs) = free_slots self path fs.
Proof. by destruct l. Qed.

Lemma slot_records_touched {A} self path (l : list A) d fs :
  slot_records self path (touched l d fs) = slot_records self path fs.
Proof. by destruct l. Qed.

Lemma create_checkpoint_run self contents_mgr path cur_time stamp fs :
  create_checkpoint self contents_mgr path cur_time stamp fs
  = match chosen_slot self path cur_time fs with
    | Some c => write_slot self contents_mgr path stamp c fs
    | None =>
        (Raise IndexError,
         touched (get_checkpoint_ids self) (checkpoint_dir_of self path) fs)
    end.
Proof.
  unfold create_checkpoint, chosen_slot.
  set (d := checkpoint_dir_of self path). set (pool := get_checkpoint_ids self).
  assert (∀ c fs',
    files fs' = files fs → mkdir d fs' = mkdir d fs →
    bind (checkpoint_path self c path)
      (λ dest_path, bind (_copy stamp (cm_get_os_path contents_mgr path) dest_path)
         (λ _, checkpoint_model self c dest_path)) fs'
    = write_slot self contents_mgr path stamp c fs) as Hwrite.
  { intros c fs' Hf Hd. rewrite bind_run, checkpoint_path_run. fold d.
    rewrite Hd, bind_run. unfold _copy, write_slot. cbn [files mkdir].
    destruct (files fs !! cm_get_os_path contents_mgr path) as [src|]; [|done].
    unfold checkpoint_model. rewrite bind_run. unfold stat_mtime, with_files.
    cbn [files mkdir]. by rewrite lookup_insert_eq. }
  rewrite bind_run, get_free_checkpoint_ids_run. fold d pool.
  destruct (free_slots self path fs) as [|c free] eqn:Hfree.
  - change (0 <? Z.of_nat (length [])) with false. cbv iota.
    rewrite bind_run, bind_run, list_checkpoints_run. fold d pool.
    rewrite slot_records_touched, touched_idemp.
    set (used := sorted_reverse info.last_modified (slot_records self path fs)).
    rewrite bind_run, index_first.
    destruct (head used) as [newest|] eqn:Hhead.
    2:{ by destruct (last used). }
    destruct (last used) as [oldest|] eqn:Hlast.
    2:{ apply last_None in Hlast. by rewrite Hlast in Hhead. }
    destruct (_ <? _).
    + rewrite bind_run, index_first, Hhead. unfold ret at 1.
      apply Hwrite; [apply files_touched|apply mkdir_touched].
    + rewrite bind_run, index_last, Hlast. unfold ret at 1.
      apply Hwrite; [apply files_touched|apply mkdir_touched].
  - replace (0 <? Z.of_nat (length (c :: free))) with true
      by (symmetry; apply Z.ltb_lt; simpl; lia).
    rewrite bind_run, index_first. cbn [head].
    apply Hwrite; [apply files_touched|apply mkdir_touched].
Qed.

End CreateFacts.

Section SlotFacts.

Lemma filter_none {A} (P : A → Prop) `{∀ x, Decision (P x)} (l : list A) :
  Forall (λ x, ¬ P x) l → filter P l = [].
Proof.
  induction 1 as [|x l Hx _ IH]; [done|].
  by rewrite filter_cons, decide_False.
Qed.

Lemma filter_head {A} (P : A → Prop) `{∀ x, Decision (P x)} (l : list A) c :
  head (filter P l) = Some c →
  ∃ l1 l2, l = l1 ++ c :: l2 ∧ Forall (λ x, ¬ P x) l1 ∧ P c.
Proof.
  induction l as [|x l IH]; [done|]. rewrite filter_cons.
  destruct (decide (P x)) as [Hx|Hx].
  - intros [= ->]. by exists [], l.
  - intros Hh. destruct (IH Hh) as (l1 & l2 & -> & Hall & Hc).
    exists (x :: l1), l2. split; [done|]. split; [by constructor|done].
Qed.

Lemma is_checkpoint_records self path fs r :
  r ∈ slot_records self path fs ↔ is_checkpoint self path fs r.
Proof.
  unfold slot_records, is_checkpoint. rewrite list_elem_of_omap. split.
  - intros (c & Hc & Hr). apply elem_of_get_checkpoint_ids in Hc as (i & Hi & ->).
    apply fmap_Some in Hr as (f & Hf & ->). by exists i, f.
  - intros (i & f & Hi & Hid & Hf & Hlm). exists (slot_id i). split.
    + apply elem_of_get_checkpoint_ids. by exists i.
    + rewrite Hf. simpl. destruct r as [c t]; simpl in *. by subst.
Qed.

Lemma free_slots_lowest self path fs i :
  lowest_free self path fs i → head (free_slots self path fs) = Some (slot_id i).
Proof.
  intros (Hi & Hnone & Hbelow). unfold free_slots.
  rewrite get_checkpoint_ids_slots.
  replace (max_checkpoints self) with (i + (max_checkpoints self - i)) by lia.
  rewrite seqZ_app, Z.add_0_l by lia. rewrite (seqZ_cons i) by lia.
  rewrite fmap_app, filter_app, fmap_cons, filter_cons.
  rewrite filter_none.
  - rewrite decide_True; [done|]. simpl. rewrite Hnone. by intros [? ?].
  - apply Forall_fmap, Forall_seqZ. intros j Hj. simpl.
    intros Hn. apply Hn, Hbelow. lia.
Qed.

Lemma free_slots_full self path fs :
  pool_full self path fs → free_slots self path fs = [].
Proof.
  intros [_ Hall]. unfold free_slots. apply filter_none.
  apply Forall_forall. intros c Hc Hn.
  apply elem_of_get_checkpoint_ids in Hc as (i & Hi & ->). by apply Hn, Hall.
Qed.

Lemma pool_full_used self path fs :
  pool_full self path fs →
  ∃ newest oldest,
    head (sorted_reverse info.last_modified (slot_records self path fs)) = Some newest
    ∧ last (sorted_reverse info.last_modified (slot_records self path fs)) = Some oldest
    ∧ most_recent self path fs newest
    ∧ least_recent self path fs oldest.
Proof.
  intros [Hpos Hall].
  set (used := sorted_reverse info.last_modified (slot_records self path fs)).
  assert (used ≠ []) as Hne.
  { destruct (Hall 0 ltac:(lia)) as [f Hf].
    assert (info.mk (slot_id 0) (st_mtime f) ∈ slot_records self path fs) as Hin.
    { apply is_checkpoint_records. exists 0, f. repeat split; try done; lia. }
    intros Hnil. unfold used in Hnil.
    rewrite <- (sorted_reverse_perm info.last_modified) in Hin.
    rewrite Hnil in Hin. by apply elem_of_nil in Hin. }
  destruct (head used) as [newest|] eqn:Hh; [|by apply head_None in Hh].
  destruct (last used) as [oldest|] eqn:Hl; [|by apply last_None in Hl].
  exists newest, oldest. split; [done|]. split; [done|].
  apply sorted_reverse_head in Hh as [Hh1 Hh2].
  apply sorted_reverse_last in Hl as [Hl1 Hl2].
  split; (split; [by apply is_checkpoint_records|]);
    intros r' Hr'; apply is_checkpoint_records in Hr'; auto.
Qed.

Lemma write_slot_creates self contents_mgr path cur_time stamp fs src c :
  files fs !! cm_get_os_path contents_mgr path = Some src →
  chosen_slot self path cur_time fs = Some c →
  creates_in self contents_mgr path cur_time stamp fs src c.
Proof.
  intros Hsrc Hc. unfold creates_in.
  rewrite create_checkpoint_run, Hc. unfold write_slot. rewrite Hsrc.
  eexists. split; [reflexivity|done].
Qed.

Lemma chosen_slot_free self path cur_time fs i :
  lowest_free self path fs i → chosen_slot self path cur_time fs = Some (slot_id i).
Proof.
  intros H. apply free_slots_lowest in H. unfold chosen_slot.
  by destruct (free_slots self path fs); simplify_eq/=.
Qed.

Lemma chosen_slot_full self path cur_time fs :
  pool_full self path fs →
  ∃ newest oldest,
    most_recent self path fs newest
    ∧ least_recent self path fs oldest
    ∧ chosen_slot self path cur_time fs
      = Some (if decide (Z.abs (info.last_modified newest - cur_time)
                         < min_seconds_between_checkpoints self * 1000000)
              then info.id newest else info.id oldest).
Proof.
  intros Hfull. destruct (pool_full_used _ _ _ Hfull)
    as (newest & oldest & Hh & Hl & Hnew & Hold).
  exists newest, oldest. split; [done|]. split; [done|].
  unfold chosen_slot. rewrite free_slots_full, Hh, Hl by done.
  f_equal. destruct (_ <? _) eqn:E.
  - apply Z.ltb_lt, timedelta_lt in E. by rewrite decide_True.
  - apply Z.ltb_ge in E. rewrite decide_False; [done|].
    rewrite <- (timedelta_lt self). lia.
Qed.

(** The states of a pool: a lowest free slot, or every slot taken, or no
    slot at all. *)
Lemma pool_cases self path fs :
  (∃ i, lowest_free self path fs i)
  ∨ pool_full self path fs
  ∨ max_checkpoints self ≤ 0.
Proof.
  destruct (free_slots self path fs) as [|c free] eqn:Hfree.
  - destruct (decide (0 < max_checkpoints self)) as [Hpos|Hpos]; [|right; right; lia].
    right; left. split; [done|]. intros j Hj.
    destruct (decide (is_Some (slot_file self path fs (slot_id j)))) as [|Hn]; [done|].
    assert (slot_id j ∈ free_slots self path fs) as Hin.
    { apply list_elem_of_filter. split; [done|].
      apply elem_of_get_checkpoint_ids. by exists j. }
    rewrite Hfree in Hin. by apply elem_of_nil in Hin.
  - left. assert (head (free_slots self path fs) = Some c) as Hh by by rewrite Hfree.
    apply filter_head in Hh as (l1 & l2 & Hpool & Hbelow & Hc).
    exists (Z.of_nat (length l1)).
    assert (get_checkpoint_ids self !! length l1 = Some c) as Hl
      by (rewrite Hpool; apply list_lookup_middle; done).
    apply lookup_get_checkpoint_ids in Hl as [Hi ->].
    split; [lia|]. split.
    + destruct (slot_file self path fs _) eqn:E; [|done]. by destruct Hc.
    + intros j Hj.
      destruct (lookup_lt_is_Some_2 l1 (Z.to_nat j) ltac:(lia)) as [x Hx].
      assert (get_checkpoint_ids self !! Z.to_nat j = Some x) as Hx'
        by (rewrite Hpool; by apply lookup_app_l_Some).
      apply lookup_get_checkpoint_ids in Hx' as [_ ->].
      rewrite Z2Nat.id in Hx by lia.
      apply list_elem_of_lookup_2 in Hx.
      eapply Forall_forall in Hbelow; [|exact Hx]. by apply dec_stable.
Qed.

(** With an empty pool there is nothing to index. *)
Lemma chosen_slot_empty self path cur_time fs :
  max_checkpoints self ≤ 0 → chosen_slot self path cur_time fs = None.
Proof.
  intros H. unfold chosen_slot, free_slots, slot_records.
  rewrite get_checkpoint_ids_slots, seqZ_nil by done. done.
Qed.

Lemma create_checkpoint_empty_pool self contents_mgr path cur_time stamp fs :
  max_checkpoints self ≤ 0 →
  create_checkpoint self contents_mgr path cur_time stamp fs = (Raise IndexError, fs).
Proof.
  intros H. rewrite create_checkpoint_run, chosen_slot_empty by done.
  by rewrite get_checkpoint_ids_slots, seqZ_nil.
Qed.

End SlotFacts.

(** ** Sequences of creates *)

Section BoundFacts.

Lemma chosen_slot_pool self path cur_time fs c :
  chosen_slot self path cur_time fs = Some c → c ∈ get_checkpoint_ids self.
Proof.
  unfold chosen_slot.
  destruct (free_slots self path fs) as [|c' free] eqn:Hfree.
  - set (used := sorted_reverse info.last_modified (slot_records self path fs)).
    destruct (head used) as [newest|] eqn:Hh; [|done].
    destruct (last used) as [oldest|] eqn:Hl; [|done].
    apply sorted_reverse_head in Hh as [Hh _].
    apply sorted_reverse_last in Hl as [Hl _].
    apply is_checkpoint_records in Hh as (i & ? & ? & Hi & _).
    apply is_checkpoint_records in Hl as (j & ? & ? & Hj & _).
    intros [= <-]. apply elem_of_get_checkpoint_ids.
    destruct (_ <? _); eauto.
  - intros [= <-].
    assert (c' ∈ free_slots self path fs) as Hin by (rewrite Hfree; left).
    unfold free_slots in Hin. by apply list_elem_of_filter in Hin as [_ ?].
Qed.

(** A create either leaves the files alone or writes one pool slot. *)
Lemma create_checkpoint_files self contents_mgr path cur_time stamp fs :
  let res := create_checkpoint self contents_mgr path cur_time stamp fs in
  (∃ e, res.1 = Raise e ∧ files res.2 = files fs)
  ∨ (∃ c f, c ∈ get_checkpoint_ids self
            ∧ res.1 = Ok (info.mk c stamp)
            ∧ files res.2 = <[checkpoint_location self c path := f]> (files fs)).
Proof.
  cbv zeta. rewrite create_checkpoint_run.
  destruct (chosen_slot self path cur_time fs) as [c|] eqn:Hc.
  - unfold write_slot.
    destruct (files fs !! cm_get_os_path contents_mgr path) as [src|].
    + right. eexists c, _. split; [by eapply chosen_slot_pool|done].
    + left. by eexists.
  - left. eexists. split; [done|]. apply files_touched.
Qed.

Lemma run_creates_files self contents_mgr path calls fs0 p :
  is_Some (files (run_creates self contents_mgr path calls fs0) !! p) →
  is_Some (files fs0 !! p)
  ∨ ∃ c, c ∈ get_checkpoint_ids self ∧ p = checkpoint_location self c path.
Proof.
  revert fs0; induction calls as [|[cur_time stamp] calls IH]; intros fs0; simpl.
  - by left.
  - intros H. apply IH in H as [H|H]; [|by right].
    destruct (create_checkpoint_files self contents_mgr path cur_time stamp fs0)
      as [(e & _ & Hf)|(c & f & Hc & _ & Hf)]; rewrite Hf in H.
    + by left.
    + destruct (decide (checkpoint_location self c path = p)) as [<-|Hne].
      * right. eauto.
      * left. by rewrite lookup_insert_ne in H.
Qed.

Lemma size_list_to_set_le (l : list string) :
  (size (list_to_set l : gset string) ≤ length l)%nat.
Proof.
  induction l as [|x l IH].
  - rewrite list_to_set_nil, size_empty. done.
  - rewrite list_to_set_cons, size_union_alt, size_singleton. simpl.
    assert (list_to_set l ∖ {[x]} ⊆ (list_to_set l : gset string)) as Hsub
      by apply subseteq_difference_l, reflexivity.
    apply subseteq_size in Hsub. lia.
Qed.

End BoundFacts.

(** ** The other lifecycle operations *)

Section LifecycleFacts.
Import Py PyFacts.

Lemma delete_checkpoint_run self checkpoint_id path fs :
  delete_checkpoint self checkpoint_id path fs
  = match files fs !! checkpoint_location self checkpoint_id path with
    | Some _ =>
        (Ok tt, with_files (delete (checkpoint_location self checkpoint_id path))
                           (mkdir (checkpoint_dir_of self path) fs))
    | None =>
        (Raise (HTTPError 404 (not_found_message (strip sep path) checkpoint_id)),
         mkdir (checkpoint_dir_of self path) fs)
    end.
Proof.
  unfold delete_checkpoint.
  rewrite bind_run, checkpoint_path_run, checkpoint_path_strip, checkpoint_dir_strip.
  rewrite bind_run. unfold isfile at 1. cbn [files mkdir].
  destruct (files fs !! checkpoint_location self checkpoint_id path) as [f|] eqn:Hf.
  - rewrite bool_decide_eq_true_2 by done. cbn [negb].
    rewrite bind_run. unfold ret at 1, perm_to_403, unlink. cbn [files mkdir].
    by rewrite Hf.
  - rewrite bool_decide_eq_false_2 by (by intros [? ?]). cbn [negb].
    by rewrite bind_run.
Qed.


Lemma restore_checkpoint_run self contents_mgr checkpoint_id path stamp fs :
  restore_checkpoint self contents_mgr checkpoint_id path stamp fs
  = match files fs !! checkpoint_location self checkpoint_id path with
    | Some f =>
        (Ok tt,
         with_files (insert (cm_get_os_path contents_mgr path)
                            {| st_mtime := stamp; content := content f |})
                    (mkdir (checkpoint_dir_of self path) fs))
    | None => (Raise (OSError ENOENT), mkdir (checkpoint_dir_of self path) fs)
    end.
Proof.
  unfold restore_checkpoint. rewrite bind_run, checkpoint_path_run.
  unfold _copy. cbn [files mkdir].
  by destruct (files fs !! checkpoint_location self checkpoint_id path).
Qed.

Lemma get_file_checkpoint_run self checkpoint_id path fs :
  get_file_checkpoint self checkpoint_id path fs
  = match files fs !! checkpoint_location self checkpoint_id path with
    | Some _ =>
        bind (_read_file (fm self) (checkpoint_location self checkpoint_id path))
          (λ '(content, format), ret (file_model content format))
          (mkdir (checkpoint_dir_of self path) fs)
    | None =>
        (Raise (HTTPError 404 (not_found_message (strip sep path) checkpoint_id)),
         mkdir (checkpoint_dir_of self path) fs)
    end.
Proof.
  unfold get_file_checkpoint.
  rewrite bind_run, checkpoint_path_run, checkpoint_path_strip, checkpoint_dir_strip.
  rewrite bind_run. unfold isfile at 1. cbn [files mkdir].
  destruct (files fs !! checkpoint_location self checkpoint_id path) as [f|] eqn:Hf.
  - rewrite bool_decide_eq_true_2 by done. cbn [negb].
    by rewrite (bind_run (ret tt)).
  - rewrite bool_decide_eq_false_2 by (by intros [? ?]). cbn [negb].
    by rewrite bind_run.
Qed.

Lemma get_notebook_checkpoint_run self checkpoint_id path fs :
  get_notebook_checkpoint self checkpoint_id path fs
  = match files fs !! checkpoint_location self checkpoint_id path with
    | Some _ =>
        bind (_read_notebook (fm self) (checkpoint_location self checkpoint_id path))
          (λ nb, ret (notebook_model nb))
          (mkdir (checkpoint_dir_of self path) fs)
    | None =>
        (Raise (HTTPError 404 (not_found_message (strip sep path) checkpoint_id)),
         mkdir (checkpoint_dir_of self path) fs)
    end.
Proof.
  unfold get_notebook_checkpoint.
  rewrite bind_run, checkpoint_path_run, checkpoint_path_strip, checkpoint_dir_strip.
  rewrite bind_run. unfold isfile at 1. cbn [files mkdir].
  destruct (files fs !! checkpoint_location self checkpoint_id path) as [f|] eqn:Hf.
  - rewrite bool_decide_eq_true_2 by done. cbn [negb].
    by rewrite (bind_run (ret tt)).
  - rewrite bool_decide_eq_false_2 by (by intros [? ?]). cbn [negb].
    by rewrite bind_run.
Qed.

End LifecycleFacts.

(** ** The single id of the content-based creates *)

Section GenericFacts.
Import Py PyFacts.

Lemma pretty_N_go_nonempty (x : N) (s : string) : s ≠ "" → pretty_N_go x s ≠ "".
Proof.
  revert s. induction (N.lt_wf_0 x) as [x _ IH]. intros s Hs.
  destruct (decide (x = 0)%N) as [->|Hx].
  - by rewrite pretty_N_go_0.
  - rewrite pretty_N_go_step by lia. apply IH; [|done].
    apply N.div_lt; lia.
Qed.

Lemma str_of_int_nonempty (i : Z) : str_of_int i ≠ "".
Proof.
  unfold str_of_int, pretty, pretty_Z. destruct i as [|p|p]; [done| |done].
  unfold pretty, pretty_positive, pretty, pretty_N.
  rewrite decide_False by done.
  rewrite pretty_N_go_step by lia. by apply pretty_N_go_nonempty.
Qed.

(** The bare id ["checkpoint"] is no slot of any pool. *)
Lemma checkpoint_not_in_pool self : "checkpoint" ∉ get_checkpoint_ids self.
Proof.
  intros H. apply elem_of_get_checkpoint_ids in H as (i & _ & H).
  unfold slot_id in H. rewrite <- (str_app_nil_r "checkpoint") in H at 1.
  apply String.app_inj in H. by eapply str_of_int_nonempty.
Qed.

Lemma checkpoint_model_id self c p fs r fs' :
  checkpoint_model self c p fs = (Ok r, fs') → info.id r = c.
Proof.
  unfold checkpoint_model. rewrite bind_run. unfold stat_mtime.
  destruct (files fs !! p); [|done]. unfold ret. by intros [= <- _].
Qed.

(** Whatever the save does, a content-based create that returns names
    the bare id. *)
Lemma create_file_checkpoint_id self content format path fs r fs' :
  create_file_checkpoint self content format path fs = (Ok r, fs') →
  info.id r = "checkpoint".
Proof.
  unfold create_file_checkpoint. rewrite bind_run, checkpoint_path_run, bind_run.
  destruct (perm_to_403 _ _) as [[[]|e] fs1]; [|done].
  apply checkpoint_model_id.
Qed.

Lemma create_notebook_checkpoint_id self nb path fs r fs' :
  create_notebook_checkpoint self nb path fs = (Ok r, fs') →
  info.id r = "checkpoint".
Proof.
  unfold create_notebook_checkpoint. rewrite bind_run, checkpoint_path_run, bind_run.
  destruct (perm_to_403 _ _) as [[[]|e] fs1]; [|done].
  apply checkpoint_model_id.
Qed.

End GenericFacts.

(** * The claims *)

(** C1: when some slot of the pool has no checkpoint file for the
    normalised path, [create_checkpoint] writes to the lowest-indexed free
    slot; when the pool is full it reuses the slot of a most recent
    checkpoint if the time between that checkpoint's [last_modified] and the
    current time is below [min_seconds_between_checkpoints], and the slot of
    a least recently modified checkpoint otherwise. A pool with at least
    one slot is always in one of these two states. *)
Theorem create_checkpoint_slot_choice
    (self : FileCheckpoints) (contents_mgr : ContentsManager) (path : string)
    (cur_time stamp : datetime) (fs : FS) (src : file) :
  files fs !! cm_get_os_path contents_mgr path = Some src →
  ((∃ i, lowest_free self path fs i)
   ∨ pool_full self path fs
   ∨ max_checkpoints self ≤ 0)
  ∧ (∀ i, lowest_free self path fs i →
          creates_in self contents_mgr path cur_time stamp fs src (slot_id i))
  ∧ (pool_full self path fs →
     ∃ newest oldest,
       most_recent self path fs newest
       ∧ least_recent self path fs oldest
       ∧ creates_in self contents_mgr path cur_time stamp fs src
           (if decide (Z.abs (info.last_modified newest - cur_time)
                       < min_seconds_between_checkpoints self * 1000000)
            then info.id newest else info.id oldest)).
Proof.
  intros Hsrc. split; [apply pool_cases|]. split.
  - intros i Hi. eapply write_slot_creates; [done|]. by apply chosen_slot_free.
  - intros Hfull.
    destruct (chosen_slot_full self path cur_time fs Hfull)
      as (newest & oldest & Hnew & Hold & Hc).
    exists newest, oldest. split; [done|]. split; [done|].
    by eapply write_slot_creates.
Qed.

Lemma fs_doc_lowest_free : lowest_free two_slots "a/nb.ipynb" fs_doc 0.
Proof.
  split; [change (max_checkpoints two_slots) with 2; lia|].
  split; [by vm_compute|]. intros j Hj. lia.
Defined.

Lemma fs_full_pool_full : pool_full two_slots "a/nb.ipynb" fs_full.
Proof.
  split; [change (max_checkpoints two_slots) with 2; lia|].
  change (max_checkpoints two_slots) with 2. intros j Hj.
  assert (j = 0 ∨ j = 1) as [-> | ->] by lia; vm_compute; eexists; reflexivity.
Defined.

Lemma create_checkpoint_slot_choice_witness :
  creates_in two_slots srv_mgr "a/nb.ipynb" (sec 0) (sec 0) fs_doc doc_file (slot_id 0)
  ∧ ∃ newest oldest,
      most_recent two_slots "a/nb.ipynb" fs_full newest
      ∧ least_recent two_slots "a/nb.ipynb" fs_full oldest
      ∧ creates_in two_slots srv_mgr "a/nb.ipynb" (sec 10) (sec 10) fs_full doc_file
          (if decide (Z.abs (info.last_modified newest - sec 10)
                      < min_seconds_between_checkpoints two_slots * 1000000)
           then info.id newest else info.id oldest).
Proof.
  split.
  - destruct (create_checkpoint_slot_choice two_slots srv_mgr "a/nb.ipynb"
                (sec 0) (sec 0) fs_doc doc_file) as (_ & Hfree & _);
      [by vm_compute|].
    exact (Hfree 0 fs_doc_lowest_free).
  - destruct (create_checkpoint_slot_choice two_slots srv_mgr "a/nb.ipynb"
                (sec 10) (sec 10) fs_full doc_file) as (_ & _ & Hfull);
      [by vm_compute|].
    exact (Hfull fs_full_pool_full).
Defined.

(** C2: over any sequence of [create_checkpoint] calls on one document path
    the checkpoint files of that path stay within the pool: every successful
    create returns and writes a slot id of [checkpoint0..checkpoint{N-1}],
    every file that the sequence adds is the file of such a slot, at most
    [N] files are added, and, starting from no checkpoints, the slot ids
    with an existing checkpoint file all belong to the pool and number at
    most [N]. *)
Theorem pool_bound (self : FileCheckpoints) (contents_mgr : ContentsManager)
    (path : string) (calls : list (datetime * datetime)) (fs0 : FS) :
  let fs := run_creates self contents_mgr path calls fs0 in
  (∀ cur_time stamp fs1 r fs2,
      create_checkpoint self contents_mgr path cur_time stamp fs1 = (Ok r, fs2) →
      info.id r ∈ get_checkpoint_ids self
      ∧ ∃ f, files fs2 = <[checkpoint_location self (info.id r) path := f]> (files fs1))
  ∧ (∀ p, is_Some (files fs !! p) →
          is_Some (files fs0 !! p)
          ∨ ∃ c, c ∈ get_checkpoint_ids self ∧ p = checkpoint_location self c path)
  ∧ Z.of_nat (size (dom (files fs) ∖ dom (files fs0))) ≤ Z.max 0 (max_checkpoints self)
  ∧ ((∀ c, slot_file self path fs0 c = None) →
     ∀ ids : list string,
       NoDup ids → (∀ c, c ∈ ids → is_Some (slot_file self path fs c)) →
       (∀ c, c ∈ ids → c ∈ get_checkpoint_ids self)
       ∧ Z.of_nat (length ids) ≤ Z.max 0 (max_checkpoints self)).
Proof.
  cbv zeta. split; [|split; [|split]].
  - intros cur_time stamp fs1 r fs2 Hrun.
    destruct (create_checkpoint_files self contents_mgr path cur_time stamp fs1)
      as [(e & He & _)|(c & f & Hc & Hr & Hf)]; rewrite Hrun in *; simplify_eq/=.
    split; [done|]. by exists f.
  - intros p. apply run_creates_files.
  - set (fs := run_creates self contents_mgr path calls fs0).
    assert (dom (files fs) ∖ dom (files fs0)
            ⊆ list_to_set ((λ c, checkpoint_location self c path)
                             <$> get_checkpoint_ids self)) as Hsub.
    { intros p Hp. apply elem_of_difference in Hp as [Hp Hp0].
      apply elem_of_dom in Hp. rewrite elem_of_dom in Hp0.
      apply run_creates_files in Hp as [Hp|(c & Hc & ->)]; [done|].
      apply elem_of_list_to_set, list_elem_of_fmap. eauto. }
    apply subseteq_size in Hsub.
    pose proof (size_list_to_set_le
                  ((λ c, checkpoint_location self c path) <$> get_checkpoint_ids self))
      as Hle.
    rewrite length_fmap, length_get_checkpoint_ids in Hle. lia.
  - intros Hnone ids Hnd Hids.
    assert (∀ c, c ∈ ids → c ∈ get_checkpoint_ids self) as Hpool.
    { intros c Hc. apply Hids in Hc. unfold slot_file in Hc.
      apply run_creates_files in Hc as [Hc|(c' & Hc' & Heq)].
      - specialize (Hnone c). unfold slot_file in Hnone. rewrite Hnone in Hc.
        by destruct Hc.
      - by apply checkpoint_location_inj in Heq as ->. }
    split; [done|].
    pose proof (submseteq_length _ _ (NoDup_submseteq _ _ Hnd Hpool)) as Hle.
    rewrite length_get_checkpoint_ids in Hle. lia.
Qed.

Lemma fs_doc_no_checkpoints c : slot_file two_slots "a/nb.ipynb" fs_doc c = None.
Proof.
  unfold slot_file, fs_doc. cbn [files]. apply lookup_singleton_ne.
  vm_compute. discriminate.
Defined.

(** The scenario of four creates at seconds 0, 5, 10 and 1000 on a pool of
    two. *)
Lemma pool_bound_witness :
  let fs := run_creates two_slots srv_mgr "a/nb.ipynb"
              [(sec 0, sec 0); (sec 5, sec 5); (sec 10, sec 10); (sec 1000, sec 1000)]
              fs_doc in
  Z.of_nat (size (dom (files fs) ∖ dom (files fs_doc))) ≤ 2
  ∧ ∀ ids : list string,
      NoDup ids →
      (∀ c, c ∈ ids → is_Some (slot_file two_slots "a/nb.ipynb" fs c)) →
      (∀ c, c ∈ ids → c ∈ get_checkpoint_ids two_slots)
      ∧ Z.of_nat (length ids) ≤ 2.
Proof.
  destruct (pool_bound two_slots srv_mgr "a/nb.ipynb"
              [(sec 0, sec 0); (sec 5, sec 5); (sec 10, sec 10); (sec 1000, sec 1000)]
              fs_doc) as (_ & _ & Hsize & Hids).
  split; [exact Hsize|]. exact (Hids fs_doc_no_checkpoints).
Defined.

(** C3: the content-based creates do not go through the slot selection.
    On the document of [fs_doc] and a pool of two, [create_file_checkpoint]
    and [create_notebook_checkpoint] both return the bare id ["checkpoint"],
    which is not one of [checkpoint0], [checkpoint1], and the checkpoint they
    wrote is not listed by [list_checkpoints]. *)
Theorem content_create_bypasses_pool :
  let by_file := create_file_checkpoint two_slots "{}" "text" "a/nb.ipynb" fs_doc in
  let by_nb := create_notebook_checkpoint two_slots "{}" "a/nb.ipynb" fs_doc in
  by_file.1 = Ok (info.mk "checkpoint" 0)
  ∧ by_nb.1 = Ok (info.mk "checkpoint" 0)
  ∧ get_checkpoint_ids two_slots = ["checkpoint0"; "checkpoint1"]
  ∧ ("checkpoint" ∉ get_checkpoint_ids two_slots)
  ∧ files by_file.2 !! "/srv/a/.ipynb_checkpoints/nb-checkpoint.ipynb"
    = Some {| st_mtime := 0; content := "{}" |}
  ∧ (list_checkpoints two_slots "a/nb.ipynb" by_file.2).1 = Ok []
  ∧ (create_checkpoint two_slots srv_mgr "a/nb.ipynb" (sec 0) (sec 0) fs_doc).1
    = Ok (info.mk "checkpoint0" (sec 0)).
Proof.
  cbv zeta. repeat split; try (by vm_compute).
  apply checkpoint_not_in_pool.
Qed.

(** C4, as stated, fails on equal modification times: the two checkpoints
    of [fs_tie] are listed one after the other with the same
    [last_modified], so the list is not strictly descending. *)
Lemma list_checkpoints_ties_counterexample :
  ∃ l, (list_checkpoints two_slots "a/nb.ipynb" fs_tie).1 = Ok l
       ∧ l = [info.mk "checkpoint0" (sec 7); info.mk "checkpoint1" (sec 7)]
       ∧ ¬ StronglySorted (λ a b, info.last_modified b < info.last_modified a) l.
Proof.
  eexists. split; [by vm_compute|]. split; [done|].
  intros H. apply StronglySorted_inv in H as [_ H].
  apply Forall_inv in H. simpl in H. lia.
Qed.

(** C4, amended: [list_checkpoints] goes over the slots of the pool, keeps
    those whose checkpoint file exists and returns their records
    [{id, last_modified}] sorted by [last_modified] in descending order,
    records with equal [last_modified] in the order of their slots. *)
Theorem list_checkpoints_sorted (self : FileCheckpoints) (path : string) (fs : FS) :
  ∃ l, list_checkpoints self path fs
       = (Ok l, touched (get_checkpoint_ids self) (checkpoint_dir_of self path) fs)
       ∧ (∀ r, r ∈ l ↔ is_checkpoint self path fs r)
       ∧ l ≡ₚ slot_records self path fs
       ∧ StronglySorted (λ a b, info.last_modified b ≤ info.last_modified a) l
       ∧ ∀ t, filter (λ r, info.last_modified r = t) l
              = filter (λ r, info.last_modified r = t) (slot_records self path fs).
Proof.
  eexists. split; [apply list_checkpoints_run|]. split; [|split; [|split]].
  - intros r. by rewrite sorted_reverse_perm, is_checkpoint_records.
  - apply sorted_reverse_perm.
  - apply sorted_reverse_sorted.
  - intros t. apply sorted_reverse_stable.
Qed.

(** C5, as stated, fails on the directory name: the default is not
    [.checkpoints]. *)
Lemma default_checkpoint_dir_counterexample :
  checkpoint_dir (new_FileCheckpoints no_config srv_mixin) ≠ ".checkpoints".
Proof. vm_compute. discriminate. Qed.

(** C5, amended: without configuration the checkpoint directory name is
    [.ipynb_checkpoints], the pool size 5 and the debounce threshold 60
    seconds; a configured value replaces each of them. *)
Theorem trait_defaults (mixin : FileManagerMixin) :
  checkpoint_dir (new_FileCheckpoints no_config mixin) = ".ipynb_checkpoints"
  ∧ max_checkpoints (new_FileCheckpoints no_config mixin) = 5
  ∧ min_seconds_between_checkpoints (new_FileCheckpoints no_config mixin) = 60
  ∧ ∀ c : Config,
      (∀ d, c_checkpoint_dir c = Some d →
            checkpoint_dir (new_FileCheckpoints c mixin) = d)
      ∧ (∀ n, c_max_checkpoints c = Some n →
              max_checkpoints (new_FileCheckpoints c mixin) = n)
      ∧ (∀ s, c_min_seconds_between_checkpoints c = Some s →
              min_seconds_between_checkpoints (new_FileCheckpoints c mixin) = s).
Proof.
  repeat split; try done; intros ? H; simpl; by rewrite H.
Qed.







(** C10: [timedelta] is symmetric and is the absolute difference of its two
    timestamps in whole seconds, the sub-second part dropped. So on a full
    pool the debounce test of [create_checkpoint] looks at whole seconds
    only, and a most recent checkpoint whose modification time lies in the
    future of the clock counts as inside the window as soon as the absolute
    difference is below the threshold. *)
Theorem timedelta_symmetric_whole_seconds (self : FileCheckpoints) (a b : datetime) :
  timedelta self a b = timedelta self b a
  ∧ timedelta self a b = Z.abs (a - b) / 1000000
  ∧ ∀ (contents_mgr : ContentsManager) (path : string) (cur_time stamp : datetime)
      (fs : FS) (src : file),
      files fs !! cm_get_os_path contents_mgr path = Some src →
      pool_full self path fs →
      ∃ newest oldest,
        most_recent self path fs newest
        ∧ least_recent self path fs oldest
        ∧ (Z.abs (info.last_modified newest - cur_time) / 1000000
             < min_seconds_between_checkpoints self →
           creates_in self contents_mgr path cur_time stamp fs src (info.id newest))
        ∧ (min_seconds_between_checkpoints self
             ≤ Z.abs (info.last_modified newest - cur_time) / 1000000 →
           creates_in self contents_mgr path cur_time stamp fs src (info.id oldest))
        ∧ (cur_time < info.last_modified newest →
           info.last_modified newest - cur_time
             < min_seconds_between_checkpoints self * 1000000 →
           creates_in self contents_mgr path cur_time stamp fs src (info.id newest)).
Proof.
  split; [|split].
  - rewrite !timedelta_abs. f_equal. lia.
  - apply timedelta_abs.
  - intros contents_mgr path cur_time stamp fs src Hsrc Hfull.
    destruct (chosen_slot_full self path cur_time fs Hfull)
      as (newest & oldest & Hnew & Hold & Hc).
    exists newest, oldest. split; [done|]. split; [done|].
    pose proof (timedelta_lt self (info.last_modified newest) cur_time
                  (min_seconds_between_checkpoints self)) as Hlt.
    rewrite timedelta_abs in Hlt.
    repeat split.
    + intros H. apply Hlt in H. rewrite decide_True in Hc by done.
      by eapply write_slot_creates.
    + intros H. rewrite decide_False in Hc by (rewrite <- Hlt; lia).
      by eapply write_slot_creates.
    + intros Hfut H. rewrite decide_True in Hc by lia.
      by eapply write_slot_creates.
Qed.

(** The newest checkpoint of [fs_full] was written at second 5; a clock that
    reads second 3 sees it two seconds in the future. *)
Lemma timedelta_symmetric_whole_seconds_witness :
  timedelta two_slots (sec 5) (sec 3) = timedelta two_slots (sec 3) (sec 5)
  ∧ ∃ newest oldest,
      most_recent two_slots "a/nb.ipynb" fs_full newest
      ∧ least_recent two_slots "a/nb.ipynb" fs_full oldest
      ∧ (sec 3 < info.last_modified newest →
         info.last_modified newest - sec 3
           < min_seconds_between_checkpoints two_slots * 1000000 →
         creates_in two_slots srv_mgr "a/nb.ipynb" (sec 3) (sec 3) fs_full doc_file
           (info.id newest)).
Proof.
  destruct (timedelta_symmetric_whole_seconds two_slots (sec 5) (sec 3))
    as (Hsym & _ & Hfull).
  split; [exact Hsym|].
  destruct (Hfull srv_mgr "a/nb.ipynb" (sec 3) (sec 3) fs_full doc_file)
    as (newest & oldest & Hnew & Hold & _ & _ & Hfut);
    [by vm_compute|exact fs_full_pool_full|].
  exists newest, oldest. auto.
Defined.


(** * Further properties of the code *)

(** ** The pool and its listing *)

Section ListingFacts.

Lemma slot_id_inj i j : slot_id i = slot_id j → i = j.
Proof.
  unfold slot_id, Py.str_of_int. intros H. apply String.app_inj in H.
  by apply (inj pretty) in H.
Qed.

Lemma NoDup_get_checkpoint_ids self : NoDup (get_checkpoint_ids self).
Proof.
  rewrite get_checkpoint_ids_slots. apply NoDup_fmap_2_strong; [|apply NoDup_seqZ].
  intros i j _ _. apply slot_id_inj.
Qed.

Lemma ids_of_records_list self path fs (l : list string) :
  info.id <$> omap (λ c, (λ f, info.mk c (st_mtime f)) <$> slot_file self path fs c) l
  = filter (λ c, is_Some (slot_file self path fs c)) l.
Proof.
  induction l as [|c l IH]; [done|]. rewrite filter_cons. cbn [omap list_omap].
  destruct (slot_file self path fs c) as [f|] eqn:Hf; cbn [fmap option_fmap option_map].
  - rewrite decide_True by done. rewrite fmap_cons. cbn [info.id]. by f_equal.
  - rewrite decide_False by (by intros [? ?]). done.
Qed.

Lemma ids_of_records self path fs :
  info.id <$> slot_records self path fs
  = filter (λ c, is_Some (slot_file self path fs c)) (get_checkpoint_ids self).
Proof. apply ids_of_records_list. Qed.

Lemma length_free_used_list self path fs (l : list string) :
  (length (filter (λ c, ¬ is_Some (slot_file self path fs c)) l)
   + length (omap (λ c, (λ f, info.mk c (st_mtime f)) <$> slot_file self path fs c) l)
   = length l)%nat.
Proof.
  induction l as [|c l IH]; [done|]. rewrite filter_cons. cbn [omap list_omap].
  destruct (slot_file self path fs c) as [f|] eqn:Hf; cbn [fmap option_fmap option_map].
  - rewrite decide_False by (intros Hn; by apply Hn). simpl. lia.
  - rewrite decide_True by (by intros [? ?]). simpl. lia.
Qed.

Lemma ids_of_listing self path fs :
  info.id <$> sorted_reverse info.last_modified (slot_records self path fs)
  ≡ₚ filter (λ c, is_Some (slot_file self path fs c)) (get_checkpoint_ids self).
Proof. by rewrite sorted_reverse_perm, ids_of_records. Qed.

End ListingFacts.

(** X1: the pool has exactly [max_checkpoints] ids (none when that is not
    positive), the id at index [i] is ["checkpoint"] followed by the decimal
    numeral of [i], and no id occurs twice. *)
Theorem get_checkpoint_ids_pool (self : FileCheckpoints) :
  Z.of_nat (length (get_checkpoint_ids self)) = Z.max 0 (max_checkpoints self)
  ∧ NoDup (get_checkpoint_ids self)
  ∧ (∀ i : nat, Z.of_nat i < max_checkpoints self →
       get_checkpoint_ids self !! i = Some ("checkpoint" +:+ Py.str_of_int (Z.of_nat i)))
  ∧ (∀ (i : nat) c, get_checkpoint_ids self !! i = Some c →
       Z.of_nat i < max_checkpoints self)
  ∧ (max_checkpoints self ≤ 0 → get_checkpoint_ids self = []).
Proof.
  split; [rewrite length_get_checkpoint_ids; lia|].
  split; [apply NoDup_get_checkpoint_ids|]. split; [|split].
  - intros i Hi. by apply lookup_get_checkpoint_ids.
  - intros i c Hc. by apply lookup_get_checkpoint_ids in Hc as [? _].
  - intros H. by rewrite get_checkpoint_ids_slots, seqZ_nil.
Qed.



(** X4: [timedelta] is never negative, depends only on the difference of
    its arguments, and is zero exactly when they are less than a second
    apart. *)
Theorem timedelta_nonneg_zero (self : FileCheckpoints) (a b k : datetime) :
  0 ≤ timedelta self a b
  ∧ timedelta self (a + k) (b + k) = timedelta self a b
  ∧ (timedelta self a b = 0 ↔ Z.abs (a - b) < 1000000).
Proof.
  rewrite !timedelta_abs. split; [apply Z.div_pos; lia|]. split.
  - f_equal. lia.
  - split; intros H.
    + apply Z.div_small_iff in H; lia.
    + apply Z.div_small. lia.
Qed.

(** ** What a create leaves behind *)

Section AfterCreate.



Lemma create_checkpoint_ok self contents_mgr path cur_time stamp fs r fs' :
  create_checkpoint self contents_mgr path cur_time stamp fs = (Ok r, fs') →
  ∃ src, files fs !! cm_get_os_path contents_mgr path = Some src
         ∧ chosen_slot self path cur_time fs = Some (info.id r)
         ∧ info.last_modified r = stamp
         ∧ info.id r ∈ get_checkpoint_ids self
         ∧ files fs'
           = <[checkpoint_location self (info.id r) path
               := {| st_mtime := stamp; content := content src |}]> (files fs).
Proof.
  rewrite create_checkpoint_run.
  destruct (chosen_slot self path cur_time fs) as [c|] eqn:Hc; [|done].
  unfold write_slot.
  destruct (files fs !! cm_get_os_path contents_mgr path) as [src|]; [|done].
  intros [= <- <-]. exists src. repeat split; try done.
  by eapply chosen_slot_pool.
Qed.

Lemma slot_file_insert self path fs fs' c f :
  files fs' = <[checkpoint_location self c path := f]> (files fs) →
  ∀ c', slot_file self path fs' c'
        = if decide (c' = c) then Some f else slot_file self path fs c'.
Proof.
  intros Hf c'. unfold slot_file. rewrite Hf. destruct (decide (c' = c)) as [->|Hne].
  - apply lookup_insert_eq.
  - apply lookup_insert_ne. intros Heq. by apply checkpoint_location_inj in Heq.
Qed.

Lemma slot_file_delete self path fs fs' c :
  files fs' = delete (checkpoint_location self c path) (files fs) →
  ∀ c', slot_file self path fs' c'
        = if decide (c' = c) then None else slot_file self path fs c'.
Proof.
  intros Hf c'. unfold slot_file. rewrite Hf. destruct (decide (c' = c)) as [->|Hne].
  - apply lookup_delete_eq.
  - apply lookup_delete_ne. intros Heq. by apply checkpoint_location_inj in Heq.
Qed.

Lemma length_filter_same {A} (P Q : A → Prop)
    `{∀ x, Decision (P x)} `{∀ x, Decision (Q x)} (l : list A) :
  (∀ x, x ∈ l → (Q x ↔ P x)) → length (filter Q l) = length (filter P l).
Proof.
  induction l as [|x l IH]; [done|]. intros Hiff. rewrite !filter_cons.
  assert (Q x ↔ P x) as Hx by (apply Hiff; left).
  assert (length (filter Q l) = length (filter P l)) as Hl
    by (apply IH; intros y Hy; apply Hiff; by right).
  destruct (decide (Q x)), (decide (P x)); simpl; try tauto; by rewrite Hl.
Qed.

Lemma length_filter_one_more {A} `{EqDecision A} (P Q : A → Prop)
    `{∀ x, Decision (P x)} `{∀ x, Decision (Q x)} (l : list A) (c : A) :
  NoDup l → c ∈ l → ¬ P c → (∀ x, Q x ↔ x = c ∨ P x) →
  length (filter Q l) = S (length (filter P l)).
Proof.
  intros Hnd Hc Hnot Hiff. induction Hnd as [|x l Hx Hnd IH]; [by apply elem_of_nil in Hc|].
  rewrite !filter_cons. apply elem_of_cons in Hc as [<-|Hc].
  - rewrite decide_True by (apply Hiff; by left). rewrite decide_False by done.
    simpl. f_equal. apply length_filter_same. intros y Hy. rewrite Hiff.
    split; [|by right]. intros [->|?]; [done|done].
  - specialize (IH Hc). assert (x ≠ c) as Hne by (intros ->; done).
    assert (Q x ↔ P x) as Hxx
      by (rewrite Hiff; split; [intros [?|?]; done|by right]).
    destruct (decide (Q x)), (decide (P x)); simpl; try tauto; by rewrite IH.
Qed.

End AfterCreate.



(** X7: after a [create_checkpoint] that returns, [list_checkpoints] lists
    the returned record; the records of the other slots are as before, and
    the listing is one longer if the slot was free and as long as before
    if the slot was reused. *)
Theorem create_then_list
    (self : FileCheckpoints) (contents_mgr : ContentsManager) (path : string)
    (cur_time stamp : datetime) (fs : FS) (r : info.t) (fs1 : FS) :
  create_checkpoint self contents_mgr path cur_time stamp fs = (Ok r, fs1) →
  ∃ used used1,
    (list_checkpoints self path fs).1 = Ok used
    ∧ (list_checkpoints self path fs1).1 = Ok used1
    ∧ r ∈ used1
    ∧ info.last_modified r = stamp
    ∧ (∀ r', info.id r' ≠ info.id r → (r' ∈ used1 ↔ r' ∈ used))
    ∧ length used1
      = if decide (info.id r ∈ info.id <$> used) then length used else S (length used).
Proof.
  intros Hrun. apply create_checkpoint_ok in Hrun as (src & _ & _ & Hlm & Hpool & Hf).
  pose proof (slot_file_insert self path fs fs1 (info.id r) _ Hf) as Hslot.
  eexists _, _. rewrite !list_checkpoints_run. cbn [fst].
  split; [done|]. split; [done|]. split; [|split; [done|split]].
  - rewrite sorted_reverse_perm. apply is_checkpoint_records.
    apply elem_of_get_checkpoint_ids in Hpool as (i & Hi & Hid).
    eexists i, _. split; [done|]. split; [done|]. split.
    + rewrite <- Hid, Hslot. by rewrite decide_True.
    + done.
  - intros r' Hne. rewrite !sorted_reverse_perm, !is_checkpoint_records.
    unfold is_checkpoint. setoid_rewrite Hslot.
    split; intros (i & f & Hi & Hid & Hfile & Hmt); exists i, f;
      (rewrite decide_False in * by congruence); done.
  - destruct (decide (info.id r ∈ info.id <$> _)) as [Hin|Hnin];
      rewrite ids_of_listing in *;
      rewrite <- (length_fmap info.id
                    (sorted_reverse info.last_modified (slot_records self path fs1))),
              <- (length_fmap info.id
                    (sorted_reverse info.last_modified (slot_records self path fs)));
      rewrite !ids_of_listing.
    + apply list_elem_of_filter in Hin as [Hin _].
      apply length_filter_same. intros c _. rewrite Hslot.
      destruct (decide (c = info.id r)) as [->|]; [|done]. split; [done|by eexists].
    + apply (length_filter_one_more _ _ _ (info.id r));
        [apply NoDup_get_checkpoint_ids|done| |].
      * intros Hs. apply Hnin, list_elem_of_filter. done.
      * intros c. rewrite Hslot. destruct (decide (c = info.id r)) as [->|].
        -- split; [by left|by eexists].
        -- split; [by right|]. by intros [?|?].
Qed.

(** X8: restoring the checkpoint that a [create_checkpoint] returned puts
    the bytes that the live document had at the create back in its place,
    whatever happened to the live document in between. *)
Theorem create_then_restore
    (self : FileCheckpoints) (contents_mgr : ContentsManager) (path : string)
    (cur_time stamp stamp' : datetime) (fs : FS) (r : info.t) (fs1 fs2 : FS) :
  create_checkpoint self contents_mgr path cur_time stamp fs = (Ok r, fs1) →
  slot_file self path fs2 (info.id r) = slot_file self path fs1 (info.id r) →
  ∃ src fs3,
    files fs !! cm_get_os_path contents_mgr path = Some src
    ∧ restore_checkpoint self contents_mgr (info.id r) path stamp' fs2 = (Ok tt, fs3)
    ∧ files fs3 !! cm_get_os_path contents_mgr path
      = Some {| st_mtime := stamp'; content := content src |}.
Proof.
  intros Hrun Hsame. apply create_checkpoint_ok in Hrun as (src & Hsrc & _ & _ & _ & Hf).
  rewrite (slot_file_insert self path fs fs1 (info.id r) _ Hf) in Hsame.
  rewrite decide_True in Hsame by done. unfold slot_file in Hsame.
  exists src. eexists. split; [done|].
  rewrite restore_checkpoint_run, Hsame. split; [done|].
  cbn [files with_files mkdir content]. apply lookup_insert_eq.
Qed.

(** X9: deleting the checkpoint that a [create_checkpoint] returned
    succeeds; if the create had taken a free slot, the files are then
    exactly the files before the create. *)
Theorem create_then_delete
    (self : FileCheckpoints) (contents_mgr : ContentsManager) (path : string)
    (cur_time stamp : datetime) (fs : FS) (r : info.t) (fs1 : FS) :
  create_checkpoint self contents_mgr path cur_time stamp fs = (Ok r, fs1) →
  ∃ fs2,
    delete_checkpoint self (info.id r) path fs1 = (Ok tt, fs2)
    ∧ files fs2 = delete (checkpoint_location self (info.id r) path) (files fs)
    ∧ (slot_file self path fs (info.id r) = None → files fs2 = files fs).
Proof.
  intros Hrun. apply create_checkpoint_ok in Hrun as (src & _ & _ & _ & _ & Hf).
  rewrite delete_checkpoint_run, Hf, lookup_insert_eq.
  eexists. split; [done|]. cbn [files with_files mkdir].
  rewrite Hf, delete_insert_eq. split; [done|]. intros Hnone. by apply delete_id.
Qed.

(** ** Debounce and eviction on a full pool *)

Section FullPoolFacts.

Lemma list_checkpoints_result self path fs used :
  (list_checkpoints self path fs).1 = Ok used →
  used = sorted_reverse info.last_modified (slot_records self path fs).
Proof. rewrite list_checkpoints_run. by intros [= <-]. Qed.

Lemma length_records_full self path fs :
  pool_full self path fs →
  length (slot_records self path fs) = length (get_checkpoint_ids self).
Proof.
  intros Hfull. pose proof (length_free_used_list self path fs (get_checkpoint_ids self)) as H.
  fold (free_slots self path fs) in H. rewrite free_slots_full in H by done.
  exact H.
Qed.

Lemma NoDup_listing_ids self path fs :
  NoDup (info.id <$> sorted_reverse info.last_modified (slot_records self path fs)).
Proof. rewrite ids_of_listing. apply NoDup_filter, NoDup_get_checkpoint_ids. Qed.

Lemma pool_full_after_write self path fs fs' c f :
  pool_full self path fs →
  files fs' = <[checkpoint_location self c path := f]> (files fs) →
  pool_full self path fs'.
Proof.
  intros [Hpos Hall] Hf. split; [done|]. intros j Hj.
  rewrite (slot_file_insert self path fs fs' c f Hf).
  destruct (decide (slot_id j = c)); [by eexists|by apply Hall].
Qed.

End FullPoolFacts.

(** X10: debounce. On a full pool, after a [create_checkpoint] whose file
    got a modification time later than every checkpoint there was, a second
    create at a clock less than [min_seconds_between_checkpoints] away from
    that time goes to the same slot. *)
Theorem debounce_collapse
    (self : FileCheckpoints) (contents_mgr : ContentsManager) (path : string)
    (cur_time stamp cur_time' stamp' : datetime) (fs : FS) (r : info.t) (fs1 : FS) :
  pool_full self path fs →
  (∀ r0, is_checkpoint self path fs r0 → info.last_modified r0 < stamp) →
  create_checkpoint self contents_mgr path cur_time stamp fs = (Ok r, fs1) →
  Z.abs (stamp - cur_time') < min_seconds_between_checkpoints self * 1000000 →
  ∃ fs2,
    create_checkpoint self contents_mgr path cur_time' stamp' fs1
    = (Ok (info.mk (info.id r) stamp'), fs2).
Proof.
  intros Hfull Hnew Hrun Hnear.
  apply create_checkpoint_ok in Hrun as (src & Hsrc & _ & Hlm & Hpool & Hf).
  pose proof (slot_file_insert self path fs fs1 (info.id r) _ Hf) as Hslot.
  pose proof (pool_full_after_write _ _ _ _ _ _ Hfull Hf) as Hfull1.
  destruct (chosen_slot_full self path cur_time' fs1 Hfull1)
    as (newest & oldest & [Hck Hmax] & _ & Hc).
  assert (is_checkpoint self path fs1 r) as Hr.
  { apply elem_of_get_checkpoint_ids in Hpool as (i & Hi & Hid).
    eexists i, _. split; [done|]. split; [done|].
    split; [rewrite <- Hid, Hslot; by rewrite decide_True|done]. }
  apply Hmax in Hr. rewrite Hlm in Hr.
  destruct Hck as (i & f & Hi & Hid & Hfile & Hmt).
  rewrite Hslot in Hfile.
  destruct (decide (slot_id i = info.id r)) as [Heq|Hne].
  - injection Hfile as <-. cbn [st_mtime] in Hmt.
    rewrite Hmt, decide_True in Hc by done. rewrite Hid, Heq in Hc.
    rewrite create_checkpoint_run, Hc. unfold write_slot.
    destruct (files fs1 !! cm_get_os_path contents_mgr path) as [src'|] eqn:Hsrc'.
    + by eexists.
    + rewrite Hf in Hsrc'. apply lookup_insert_None in Hsrc' as [Hsrc' _]. congruence.
  - assert (info.last_modified newest < stamp); [|lia].
    apply Hnew. by exists i, f.
Qed.

(** X11: eviction. On a full pool of at least two slots, a create that
    comes [min_seconds_between_checkpoints] or more after the newest
    checkpoint overwrites the slot listed last, which is not the slot of
    the newest checkpoint, and leaves the newest checkpoint's file alone. *)
Theorem eviction_spares_newest
    (self : FileCheckpoints) (contents_mgr : ContentsManager) (path : string)
    (cur_time stamp : datetime) (fs : FS) (used : list info.t) (newest r : info.t)
    (fs1 : FS) :
  2 ≤ max_checkpoints self →
  pool_full self path fs →
  (list_checkpoints self path fs).1 = Ok used →
  head used = Some newest →
  min_seconds_between_checkpoints self * 1000000
    ≤ Z.abs (info.last_modified newest - cur_time) →
  create_checkpoint self contents_mgr path cur_time stamp fs = (Ok r, fs1) →
  info.id <$> last used = Some (info.id r)
  ∧ info.id r ≠ info.id newest
  ∧ slot_file self path fs1 (info.id newest) = slot_file self path fs (info.id newest)
  ∧ ∃ used1, (list_checkpoints self path fs1).1 = Ok used1 ∧ newest ∈ used1.
Proof.
  intros HN Hfull Hused Hhead Hfar Hrun.
  apply list_checkpoints_result in Hused.
  apply create_checkpoint_ok in Hrun as (src & _ & Hc & _ & _ & Hf).
  pose proof (slot_file_insert self path fs fs1 (info.id r) _ Hf) as Hslot.
  unfold chosen_slot in Hc. rewrite free_slots_full in Hc by done.
  rewrite <- Hused, Hhead in Hc.
  destruct (last used) as [oldest|] eqn:Hlast; [|done].
  destruct (_ <? _) eqn:E in Hc.
  { apply Z.ltb_lt, timedelta_lt in E. lia. }
  injection Hc as Hc.
  assert (info.id r ≠ info.id newest) as Hne.
  { intros Heq. pose proof (NoDup_listing_ids self path fs) as Hnd.
    rewrite <- Hused in Hnd.
    assert (length used = length (get_checkpoint_ids self)) as Hlen.
    { rewrite Hused, (sorted_reverse_perm info.last_modified (slot_records self path fs)).
      by apply length_records_full. }
    rewrite length_get_checkpoint_ids in Hlen.
    rewrite head_lookup in Hhead. rewrite last_lookup in Hlast.
    assert ((info.id <$> used) !! 0%nat = Some (info.id newest)) as H0
      by (by rewrite list_lookup_fmap, Hhead).
    assert ((info.id <$> used) !! pred (length used) = Some (info.id newest)) as H1
      by (by rewrite list_lookup_fmap, Hlast; cbn; rewrite Hc, Heq).
    pose proof (NoDup_lookup _ _ _ _ Hnd H0 H1). lia. }
  split; [by rewrite <- Hc|]. split; [done|]. split.
  - rewrite Hslot. by rewrite decide_False by done.
  - eexists. rewrite list_checkpoints_run. split; [done|].
    rewrite sorted_reverse_perm. apply is_checkpoint_records.
    assert (is_checkpoint self path fs newest) as (i & f & Hi & Hid & Hfile & Hmt).
    { apply is_checkpoint_records.
      rewrite <- (sorted_reverse_perm info.last_modified), <- Hused.
      by apply head_Some_elem_of. }
    exists i, f. split; [done|]. split; [done|]. split; [|done].
    rewrite Hslot, decide_False by congruence. done.
Qed.

(** ** Delete, rename, restore and retrieve *)

(** X12: deleting an existing checkpoint frees its slot: a second delete
    of the same checkpoint raises the 404, and [list_checkpoints] then
    lists the records it listed before except the deleted one. *)
Theorem delete_then_gone
    (self : FileCheckpoints) (checkpoint_id path : string) (fs : FS) :
  is_Some (slot_file self path fs checkpoint_id) →
  ∃ fs1 used used1,
    delete_checkpoint self checkpoint_id path fs = (Ok tt, fs1)
    ∧ (delete_checkpoint self checkpoint_id path fs1).1
      = Raise (HTTPError 404
                 (not_found_message (Py.strip Py.sep path) checkpoint_id))
    ∧ (list_checkpoints self path fs).1 = Ok used
    ∧ (list_checkpoints self path fs1).1 = Ok used1
    ∧ (∀ r, r ∈ used1 ↔ r ∈ used ∧ info.id r ≠ checkpoint_id)
    ∧ (checkpoint_id ∈ get_checkpoint_ids self →
       checkpoint_id ∈ free_slots self path fs1).
Proof.
  intros [f Hfile]. unfold slot_file in Hfile.
  set (fs1 := with_files (delete (checkpoint_location self checkpoint_id path))
                (mkdir (checkpoint_dir_of self path) fs)).
  exists fs1, (sorted_reverse info.last_modified (slot_records self path fs)),
    (sorted_reverse info.last_modified (slot_records self path fs1)).
  rewrite !delete_checkpoint_run, Hfile. fold fs1.
  assert (files fs1 = delete (checkpoint_location self checkpoint_id path) (files fs))
    as Hfs1 by done.
  rewrite Hfs1, lookup_delete_eq.
  split; [done|]. split; [done|]. rewrite !list_checkpoints_run. cbn [fst].
  split; [done|]. split; [done|].
  assert (∀ c', slot_file self path fs1 c'
                = if decide (c' = checkpoint_id) then None else slot_file self path fs c')
    as Hslot by (by apply slot_file_delete).
  split.
  - intros r. rewrite !sorted_reverse_perm, !is_checkpoint_records.
    unfold is_checkpoint. setoid_rewrite Hslot. split.
    + intros (i & f' & Hi & Hid & Hf' & Hmt).
      destruct (decide (slot_id i = checkpoint_id)) as [|Hne]; [done|].
      split; [by exists i, f'|congruence].
    + intros [(i & f' & Hi & Hid & Hf' & Hmt) Hne]. exists i, f'.
      rewrite decide_False by congruence. done.
  - intros Hpool. unfold free_slots. apply list_elem_of_filter. split; [|done].
    rewrite Hslot, decide_True by done. by intros [? ?].
Qed.



(** X15: restoring an existing checkpoint returns, gives the live document
    the checkpoint's bytes and changes no other file; the checkpoint keeps
    its bytes, and restoring once more changes nothing. *)
Theorem restore_checkpoint_copies_back
    (self : FileCheckpoints) (contents_mgr : ContentsManager)
    (checkpoint_id path : string) (stamp : datetime) (fs : FS) (f : file) :
  slot_file self path fs checkpoint_id = Some f →
  ∃ fs1 fs2,
    restore_checkpoint self contents_mgr checkpoint_id path stamp fs = (Ok tt, fs1)
    ∧ files fs1
      = <[cm_get_os_path contents_mgr path
          := {| st_mtime := stamp; content := content f |}]> (files fs)
    ∧ content <$> slot_file self path fs1 checkpoint_id = Some (content f)
    ∧ restore_checkpoint self contents_mgr checkpoint_id path stamp fs1 = (Ok tt, fs2)
    ∧ files fs2 = files fs1.
Proof.
  intros Hfile. unfold slot_file in Hfile.
  assert (content <$>
            (<[cm_get_os_path contents_mgr path
               := {| st_mtime := stamp; content := content f |}]> (files fs))
              !! checkpoint_location self checkpoint_id path
          = Some (content f)) as Hkeep.
  { destruct (decide (cm_get_os_path contents_mgr path
                      = checkpoint_location self checkpoint_id path)) as [->|Hne].
    - by rewrite lookup_insert_eq.
    - by rewrite lookup_insert_ne, Hfile by done. }
  set (fs1 := with_files
                (insert (cm_get_os_path contents_mgr path)
                        {| st_mtime := stamp; content := content f |})
                (mkdir (checkpoint_dir_of self path) fs)).
  assert (files fs1
          = <[cm_get_os_path contents_mgr path
              := {| st_mtime := stamp; content := content f |}]> (files fs))
    as Hfs1 by done.
  apply fmap_Some in Hkeep as (f1 & Hf1 & Hc1). rewrite <- Hfs1 in Hf1.
  exists fs1. eexists. rewrite restore_checkpoint_run, Hfile. fold fs1.
  split; [done|]. split; [done|]. split.
  { unfold slot_file. by rewrite Hf1, Hc1. }
  rewrite restore_checkpoint_run, Hf1. split; [done|].
  cbn [files with_files mkdir]. fold fs1. by rewrite Hfs1, <- Hc1, insert_insert_eq.
Qed.

(** X16: the record that a content-based create returns describes the file
    at the location of the bare id ["checkpoint"]: that file exists with the
    record's modification time, so [get_file_checkpoint] with the returned
    id raises no 404 of its own and hands over to the reader, and
    [delete_checkpoint] with it succeeds. *)
Theorem content_create_then_retrieve
    (self : FileCheckpoints) (content format path : string) (fs : FS)
    (r : info.t) (fs1 : FS) :
  create_file_checkpoint self content format path fs = (Ok r, fs1) →
  info.id r = "checkpoint"
  ∧ (∃ f, slot_file self path fs1 "checkpoint" = Some f
          ∧ st_mtime f = info.last_modified r)
  ∧ get_file_checkpoint self (info.id r) path fs1
    = bind (_read_file (fm self) (checkpoint_location self "checkpoint" path))
        (λ '(content, format), ret (file_model content format))
        (mkdir (checkpoint_dir_of self path) fs1)
  ∧ (delete_checkpoint self (info.id r) path fs1).1 = Ok tt.
Proof.
  intros Hrun. pose proof (create_file_checkpoint_id _ _ _ _ _ _ _ Hrun) as Hid.
  split; [done|]. rewrite Hid.
  assert (∃ f, slot_file self path fs1 "checkpoint" = Some f
               ∧ st_mtime f = info.last_modified r) as (f & Hf & Hmt).
  { revert Hrun. unfold create_file_checkpoint.
    rewrite bind_run, checkpoint_path_run, checkpoint_path_strip, bind_run.
    destruct (perm_to_403 _ _) as [[[]|e] fs']; [|done].
    unfold checkpoint_model. rewrite bind_run. unfold stat_mtime, slot_file.
    destruct (files fs' !! _) as [f|] eqn:Hf; [|done].
    unfold ret. intros [= <- <-]. by exists f. }
  split; [by exists f|]. unfold slot_file in Hf. split.
  - by rewrite get_file_checkpoint_run, Hf.
  - by rewrite delete_checkpoint_run, Hf.
Qed.

(** ** The further properties on the pool of two *)

Lemma fs_full_older_than_10 r0 :
  is_checkpoint two_slots "a/nb.ipynb" fs_full r0 → info.last_modified r0 < sec 10.
Proof.
  intros (i & f & Hi & _ & Hf & ->). change (max_checkpoints two_slots) with 2 in Hi.
  assert (i = 0 ∨ i = 1) as [-> | ->] by lia; vm_compute in Hf;
    injection Hf as <-; by vm_compute.
Defined.

Lemma create_then_list_witness :
  ∃ used1,
    (list_checkpoints two_slots "a/nb.ipynb"
       (create_checkpoint two_slots srv_mgr "a/nb.ipynb" (sec 0) (sec 3) fs_doc).2).1
    = Ok used1
    ∧ info.mk "checkpoint0" (sec 3) ∈ used1
    ∧ length used1 = 1%nat.
Proof.
  destruct (create_then_list two_slots srv_mgr "a/nb.ipynb" (sec 0) (sec 3) fs_doc
              (info.mk "checkpoint0" (sec 3))
              (create_checkpoint two_slots srv_mgr "a/nb.ipynb" (sec 0) (sec 3) fs_doc).2)
    as (used & used1 & Hused & Hused1 & Hin & _ & _ & Hlen); [by vm_compute|].
  exists used1. split; [exact Hused1|]. split; [exact Hin|].
  rewrite Hlen. vm_compute in Hused. injection Hused as <-. reflexivity.
Defined.

Lemma create_then_restore_witness :
  ∃ fs3,
    restore_checkpoint two_slots srv_mgr "checkpoint0" "a/nb.ipynb" (sec 9)
      (create_checkpoint two_slots srv_mgr "a/nb.ipynb" (sec 0) (sec 3) fs_doc).2
    = (Ok tt, fs3)
    ∧ files fs3 !! "/srv/a/nb.ipynb" = Some {| st_mtime := sec 9; content := "{}" |}.
Proof.
  destruct (create_then_restore two_slots srv_mgr "a/nb.ipynb" (sec 0) (sec 3) (sec 9)
              fs_doc (info.mk "checkpoint0" (sec 3))
              (create_checkpoint two_slots srv_mgr "a/nb.ipynb" (sec 0) (sec 3) fs_doc).2
              (create_checkpoint two_slots srv_mgr "a/nb.ipynb" (sec 0) (sec 3) fs_doc).2)
    as (src & fs3 & Hsrc & Hrun & Hdoc); [by vm_compute|reflexivity|].
  exists fs3. split; [exact Hrun|].
  vm_compute in Hsrc. injection Hsrc as <-. exact Hdoc.
Defined.

Lemma create_then_delete_witness :
  ∃ fs2,
    delete_checkpoint two_slots "checkpoint0" "a/nb.ipynb"
      (create_checkpoint two_slots srv_mgr "a/nb.ipynb" (sec 0) (sec 3) fs_doc).2
    = (Ok tt, fs2)
    ∧ files fs2 = files fs_doc.
Proof.
  destruct (create_then_delete two_slots srv_mgr "a/nb.ipynb" (sec 0) (sec 3) fs_doc
              (info.mk "checkpoint0" (sec 3))
              (create_checkpoint two_slots srv_mgr "a/nb.ipynb" (sec 0) (sec 3) fs_doc).2)
    as (fs2 & Hrun & _ & Hback); [by vm_compute|].
  exists fs2. split; [exact Hrun|]. apply Hback. exact (fs_doc_no_checkpoints _).
Defined.

Lemma debounce_collapse_witness :
  ∃ fs2,
    create_checkpoint two_slots srv_mgr "a/nb.ipynb" (sec 20) (sec 20)
      (create_checkpoint two_slots srv_mgr "a/nb.ipynb" (sec 10) (sec 10) fs_full).2
    = (Ok (info.mk "checkpoint1" (sec 20)), fs2).
Proof.
  apply (debounce_collapse two_slots srv_mgr "a/nb.ipynb" (sec 10) (sec 10) (sec 20)
           (sec 20) fs_full (info.mk "checkpoint1" (sec 10))
           (create_checkpoint two_slots srv_mgr "a/nb.ipynb" (sec 10) (sec 10) fs_full).2).
  - exact fs_full_pool_full.
  - exact fs_full_older_than_10.
  - by vm_compute.
  - by vm_compute.
Defined.

Lemma eviction_spares_newest_witness :
  slot_file two_slots "a/nb.ipynb"
    (create_checkpoint two_slots srv_mgr "a/nb.ipynb" (sec 1000) (sec 1000) fs_full).2
    "checkpoint1"
  = slot_file two_slots "a/nb.ipynb" fs_full "checkpoint1".
Proof.
  destruct (eviction_spares_newest two_slots srv_mgr "a/nb.ipynb" (sec 1000) (sec 1000)
              fs_full
              [info.mk "checkpoint1" (sec 5); info.mk "checkpoint0" (sec 0)]
              (info.mk "checkpoint1" (sec 5)) (info.mk "checkpoint0" (sec 1000))
              (create_checkpoint two_slots srv_mgr "a/nb.ipynb" (sec 1000) (sec 1000)
                 fs_full).2)
    as (_ & _ & Hkept & _).
  - by vm_compute.
  - exact fs_full_pool_full.
  - by vm_compute.
  - reflexivity.
  - by vm_compute.
  - by vm_compute.
  - exact Hkept.
Defined.

Lemma delete_then_gone_witness :
  ∃ fs1,
    delete_checkpoint two_slots "checkpoint1" "a/nb.ipynb" fs_full = (Ok tt, fs1)
    ∧ (delete_checkpoint two_slots "checkpoint1" "a/nb.ipynb" fs1).1
      = Raise (HTTPError 404 "Checkpoint does not exist: a/nb.ipynb@checkpoint1").
Proof.
  destruct (delete_then_gone two_slots "checkpoint1" "a/nb.ipynb" fs_full)
    as (fs1 & used & used1 & Hrun & Hagain & _); [vm_compute; by eexists|].
  exists fs1. split; [exact Hrun|exact Hagain].
Defined.



Lemma restore_checkpoint_copies_back_witness :
  ∃ fs1,
    restore_checkpoint two_slots srv_mgr "checkpoint1" "a/nb.ipynb" (sec 9) fs_full
    = (Ok tt, fs1)
    ∧ files fs1
      = <["/srv/a/nb.ipynb" := {| st_mtime := sec 9; content := "{}" |}]> (files fs_full).
Proof.
  destruct (restore_checkpoint_copies_back two_slots srv_mgr "checkpoint1" "a/nb.ipynb"
              (sec 9) fs_full {| st_mtime := sec 5; content := "{}" |})
    as (fs1 & fs2 & Hrun & Hfiles & _); [by vm_compute|].
  exists fs1. split; [exact Hrun|exact Hfiles].
Defined.

Lemma content_create_then_retrieve_witness :
  (get_file_checkpoint two_slots "checkpoint" "a/nb.ipynb"
     (create_file_checkpoint two_slots "x = 1" "text" "a/nb.ipynb" fs_doc).2).1
  = Ok (file_model "x = 1" "text").
Proof.
  destruct (content_create_then_retrieve two_slots "x = 1" "text" "a/nb.ipynb" fs_doc
              (info.mk "checkpoint" 0)
              (create_file_checkpoint two_slots "x = 1" "text" "a/nb.ipynb" fs_doc).2)
    as (_ & _ & Hget & _); [by vm_compute|].
  cbn [info.id] in Hget. rewrite Hget. by vm_compute.
Defined.

(** ** The checkpoint file name *)

Section NameFacts.
Import Py PyFacts.

Lemma str_app_assoc (s t u : string) : (s +:+ t) +:+ u = s +:+ t +:+ u.
Proof. induction s as [|a s IH]; [done|]. by rewrite !str_app_cons, IH. Qed.

Lemma occurs_app c s t : occurs c (s +:+ t) = occurs c s || occurs c t.
Proof.
  induction s as [|a s IH]; [done|]. rewrite str_app_cons. simpl.
  by rewrite IH, orb_assoc.
Qed.

Lemma some_not_dot_app s t : some_not_dot (s +:+ t) = some_not_dot s || some_not_dot t.
Proof.
  induction s as [|a s IH]; [done|]. rewrite str_app_cons. simpl.
  by destruct (Ascii.eqb a extsep).
Qed.

Lemma rfind_app c s t :
  rfind c (s +:+ t) = if occurs c t then len s + rfind c t else rfind c s.
Proof.
  induction s as [|a s IH].
  - change ("" +:+ t) with t. unfold len. simpl.
    destruct (occurs c t) eqn:E; [lia|]. by apply rfind_absent.
  - rewrite str_app_cons. cbn [rfind]. rewrite IH. unfold len. cbn [String.length].
    destruct (occurs c t) eqn:E; [|done].
    assert (0 ≤ rfind c t) by (apply Z.leb_le; by rewrite rfind_occurs).
    destruct (0 <=? Z.of_nat (String.length s) + rfind c t) eqn:E'; [lia|].
    apply Z.leb_gt in E'. lia.
Qed.

Lemma take_app_length s t : take (String.length s) (s +:+ t) = s.
Proof. induction s as [|a s IH]; [by destruct t|]. rewrite str_app_cons. simpl. by rewrite IH. Qed.

Lemma drop_app_length s t : drop (String.length s) (s +:+ t) = t.
Proof. induction s as [|a s IH]; [by destruct t|]. by rewrite str_app_cons. Qed.

Lemma drop_rfind c s :
  0 ≤ rfind c s →
  drop (Z.to_nat (rfind c s)) s = String c (drop (Z.to_nat (rfind c s + 1)) s).
Proof.
  induction s as [|a s IH]; [simpl; lia|]. intros Hk.
  destruct (occurs c s) eqn:E.
  - rewrite rfind_cons_present in * by done.
    assert (0 ≤ rfind c s) as Hr by (apply Z.leb_le; by rewrite rfind_occurs).
    replace (Z.to_nat (rfind c s + 1)) with (S (Z.to_nat (rfind c s))) by lia.
    replace (Z.to_nat (rfind c s + 1 + 1)) with (S (Z.to_nat (rfind c s + 1))) by lia.
    simpl. rewrite IH by done.
    by replace (Z.to_nat (rfind c s + 1)) with (S (Z.to_nat (rfind c s))) by lia.
  - simpl in Hk. rewrite rfind_occurs, E in Hk.
    destruct (Ascii.eqb a c) eqn:Ea; [|lia]. apply Ascii.eqb_eq in Ea as ->.
    by rewrite rfind_cons_absent.
Qed.

Lemma occurs_lstrip c d s : occurs c s = false → occurs c (lstrip d s) = false.
Proof.
  induction s as [|a s IH]; [done|]. simpl. intros H.
  apply orb_false_iff in H as [Ha Hs]. destruct (Ascii.eqb a d); [by apply IH|].
  simpl. by rewrite Ha, Hs.
Qed.

Lemma lstrip_app_other s t :
  startswith extsep t = false → t ≠ "" →
  lstrip extsep (s +:+ t) = lstrip extsep s +:+ t.
Proof.
  intros Ht Hne. induction s as [|a s IH].
  - change ("" +:+ t) with t. by apply lstrip_id.
  - rewrite str_app_cons. simpl. destruct (Ascii.eqb a extsep); [done|].
    by rewrite str_app_cons.
Qed.

(** A name whose dots all lead has no extension. *)
Lemma leading_dots_take s :
  occurs extsep (lstrip extsep s) = false →
  some_not_dot (take (Z.to_nat (rfind extsep s)) s) = false.
Proof.
  induction s as [|a s IH]; [done|]. simpl lstrip.
  destruct (Ascii.eqb a extsep) eqn:Ea.
  - intros H. specialize (IH H). cbn [rfind].
    destruct (0 <=? rfind extsep s) eqn:E.
    + apply Z.leb_le in E.
      replace (Z.to_nat (rfind extsep s + 1)) with (S (Z.to_nat (rfind extsep s))) by lia.
      simpl. by rewrite Ea.
    + by rewrite Ea.
  - intros H. by rewrite (rfind_absent _ _ H).
Qed.

Lemma splitext_no_ext p :
  occurs sep p = false → occurs extsep (lstrip extsep p) = false →
  splitext p = (p, "").
Proof.
  intros Hsep Hdots. unfold splitext. rewrite (rfind_absent _ _ Hsep).
  change (Z.to_nat (-1 + 1)) with 0%nat. change (drop 0 p) with p.
  rewrite Z.sub_0_r, leading_dots_take by done. by rewrite andb_false_r.
Qed.

Lemma splitext_with_ext b e :
  occurs sep b = false → occurs sep e = false → occurs extsep e = false →
  some_not_dot b = true →
  splitext (b +:+ String extsep e) = (b, String extsep e).
Proof.
  intros Hb He Hdot Hsome. unfold splitext.
  assert (occurs sep (b +:+ String extsep e) = false) as Hsep
    by (rewrite occurs_app, Hb; simpl; by rewrite He).
  rewrite (rfind_absent _ _ Hsep), rfind_app. cbn [occurs].
  rewrite Ascii.eqb_refl. cbn [orb]. rewrite rfind_cons_absent by done.
  change (Z.to_nat (-1 + 1)) with 0%nat. change (drop 0 ?s) with s.
  unfold len. rewrite Z.add_0_r, Z.sub_0_r, Nat2Z.id.
  rewrite take_app_length, drop_app_length, Hsome.
  replace (-1 <? Z.of_nat (String.length b)) with true by (symmetry; apply Z.ltb_lt; lia).
  done.
Qed.

Lemma leading_dots_from_take s :
  0 ≤ rfind extsep s →
  some_not_dot (take (Z.to_nat (rfind extsep s)) s) = false →
  occurs extsep (lstrip extsep s) = false.
Proof.
  induction s as [|a s IH]; [simpl; lia|]. intros Hk.
  destruct (occurs extsep s) eqn:E.
  - rewrite rfind_cons_present by done.
    assert (0 ≤ rfind extsep s) as Hr by (apply Z.leb_le; by rewrite rfind_occurs).
    replace (Z.to_nat (rfind extsep s + 1)) with (S (Z.to_nat (rfind extsep s))) by lia.
    simpl. destruct (Ascii.eqb a extsep); [by apply IH|done].
  - simpl in Hk. rewrite rfind_occurs, E in Hk.
    destruct (Ascii.eqb a extsep) eqn:Ea; [|lia]. intros _. simpl. rewrite Ea.
    by apply occurs_lstrip.
Qed.

(** What [splitext] returns for a name without a separator. *)
Lemma splitext_shape n :
  occurs sep n = false →
  ((splitext n).1 = n ∧ (splitext n).2 = ""
   ∧ occurs extsep (lstrip extsep n) = false)
  ∨ (∃ e, (splitext n).2 = String extsep e ∧ occurs extsep e = false
          ∧ some_not_dot (splitext n).1 = true).
Proof.
  intros Hsep. unfold splitext. rewrite (rfind_absent _ _ Hsep).
  change (Z.to_nat (-1 + 1)) with 0%nat. change (drop 0 n) with n.
  rewrite Z.sub_0_r.
  destruct (-1 <? rfind extsep n) eqn:Ek; cbn [andb].
  - apply Z.ltb_lt in Ek.
    destruct (some_not_dot (take (Z.to_nat (rfind extsep n)) n)) eqn:Es; cbn [fst snd].
    + right. exists (drop (Z.to_nat (rfind extsep n + 1)) n).
      split; [apply drop_rfind; lia|]. split; [apply occurs_drop_rfind|done].
    + left. split; [done|]. split; [done|]. apply leading_dots_from_take; [lia|done].
  - apply Z.ltb_ge in Ek. left. cbn [fst snd]. split; [done|]. split; [done|].
    apply occurs_lstrip. rewrite <- rfind_occurs. apply Z.leb_gt. lia.
Qed.

Lemma pretty_N_char_other c x : c = sep ∨ c = extsep ∨ c = "-"%char → Ascii.eqb (pretty_N_char x) c = false.
Proof. intros [-> | [-> | ->]]; unfold pretty_N_char; by repeat case_match. Qed.

Lemma occurs_pretty_N_go c x s :
  c = sep ∨ c = extsep ∨ c = "-"%char → occurs c s = false → occurs c (pretty_N_go x s) = false.
Proof.
  intros Hc. revert s. induction (N.lt_wf_0 x) as [x _ IH]. intros s Hs.
  destruct (decide (x = 0)%N) as [->|Hx]; [by rewrite pretty_N_go_0|].
  rewrite pretty_N_go_step by lia. apply IH; [apply N.div_lt; lia|].
  simpl. by rewrite pretty_N_char_other, Hs.
Qed.

Lemma occurs_pretty_positive c (p : positive) :
  c = sep ∨ c = extsep ∨ c = "-"%char → occurs c (pretty p) = false.
Proof.
  intros Hc. unfold pretty, pretty_positive, pretty, pretty_N.
  rewrite decide_False by done. by apply occurs_pretty_N_go.
Qed.

Lemma occurs_str_of_int c i : c = sep ∨ c = extsep → occurs c (str_of_int i) = false.
Proof.
  intros Hc. unfold str_of_int, pretty, pretty_Z. destruct i as [|p|p].
  - by destruct Hc as [-> | ->].
  - apply occurs_pretty_positive. tauto.
  - rewrite occurs_app, occurs_pretty_positive by tauto.
    by destruct Hc as [-> | ->].
Qed.

Lemma occurs_dash_slot_id i : 0 ≤ i → occurs "-" (slot_id i) = false.
Proof.
  intros Hi. unfold slot_id, str_of_int, pretty, pretty_Z. rewrite occurs_app.
  destruct i as [|p|p]; [done| |lia].
  rewrite occurs_pretty_positive; [done|]. tauto.
Qed.

Lemma split_at_last c s1 t1 s2 t2 :
  occurs c t1 = false → occurs c t2 = false →
  s1 +:+ String c t1 = s2 +:+ String c t2 → s1 = s2 ∧ t1 = t2.
Proof.
  intros H1 H2 Heq.
  assert (String.length s1 = String.length s2) as Hlen.
  { pose proof (f_equal (rfind c) Heq) as Hr. rewrite !rfind_app in Hr.
    cbn [occurs] in Hr. rewrite Ascii.eqb_refl in Hr. cbn [orb] in Hr.
    rewrite !rfind_cons_absent in Hr by done. unfold len in Hr. lia. }
  pose proof (f_equal (take (String.length s1)) Heq) as Ht.
  rewrite take_app_length, Hlen, take_app_length in Ht.
  pose proof (f_equal (drop (String.length s1)) Heq) as Hd.
  rewrite drop_app_length, Hlen, drop_app_length in Hd.
  split; [done|]. by injection Hd.
Qed.

Lemma occurs_slot_id c i : c = sep ∨ c = extsep → occurs c (slot_id i) = false.
Proof.
  intros Hc. unfold slot_id. rewrite occurs_app, occurs_str_of_int by done.
  by destruct Hc as [-> | ->].
Qed.

Lemma occurs_base n : occurs sep n = false → occurs sep (splitext n).1 = false.
Proof.
  intros H. rewrite <- (splitext_app n), occurs_app in H.
  by apply orb_false_iff in H as [? _].
Qed.

Lemma occurs_ext n : occurs sep n = false → occurs sep (splitext n).2 = false.
Proof.
  intros H. rewrite <- (splitext_app n), occurs_app in H.
  by apply orb_false_iff in H as [_ ?].
Qed.


Lemma file_name_splitext (checkpoint_id path : string) :
  Py.occurs Py.sep checkpoint_id = false →
  Py.occurs Py.extsep checkpoint_id = false →
  let name := (parent_and_name (Py.strip Py.sep path)).2 in
  Py.splitext (checkpoint_file_name checkpoint_id path)
  = ((Py.splitext name).1 +:+ "-" +:+ checkpoint_id, (Py.splitext name).2).
Proof.
  intros Hsep Hdot. cbv zeta. unfold checkpoint_file_name.
  set (name := (parent_and_name (Py.strip Py.sep path)).2).
  assert (Py.occurs Py.sep name = false) as Hname by apply name_no_sep.
  destruct (splitext_shape name Hname) as [(Hb & He & Hlead)|(e & He & Hnodot & Hsome)].
  - rewrite He, Hb, PyFacts.str_app_nil_r. apply splitext_no_ext.
    + rewrite !occurs_app, Hname, Hsep. done.
    + rewrite lstrip_app_other by done.
      rewrite !occurs_app, Hlead, Hdot. done.
  - rewrite He.
    rewrite <- (str_app_assoc "-"), <- str_app_assoc.
    apply splitext_with_ext.
    + rewrite !occurs_app, occurs_base, Hsep by done. done.
    + pose proof (occurs_ext name Hname) as Hx. by rewrite He in Hx.
    + done.
    + rewrite !some_not_dot_app. simpl. by rewrite orb_true_r.
Qed.

End NameFacts.


(** X18: a checkpoint file keeps the extension of its document: for every
    id the module writes under (a pool id, or the bare id ["checkpoint"] of
    the content-based creates), [splitext] of the checkpoint file name gives
    the document's base name followed by [-] and the id, and the document's
    extension. *)
Theorem checkpoint_file_keeps_extension
    (self : FileCheckpoints) (checkpoint_id path : string) :
  checkpoint_id ∈ get_checkpoint_ids self ∨ checkpoint_id = "checkpoint" →
  let name := (parent_and_name (Py.strip Py.sep path)).2 in
  Py.splitext (checkpoint_file_name checkpoint_id path)
  = ((Py.splitext name).1 +:+ "-" +:+ checkpoint_id, (Py.splitext name).2).
Proof.
  intros [Hpool| ->].
  - apply elem_of_get_checkpoint_ids in Hpool as (i & _ & ->).
    apply file_name_splitext; apply occurs_slot_id; auto.
  - by apply file_name_splitext.
Qed.

Lemma checkpoint_file_keeps_extension_witness :
  Py.splitext (checkpoint_file_name "checkpoint" "a/notes.tar.gz")
  = ((Py.splitext "notes.tar.gz").1 +:+ "-" +:+ "checkpoint",
     (Py.splitext "notes.tar.gz").2).
Proof.
  apply (checkpoint_file_keeps_extension two_slots "checkpoint" "a/notes.tar.gz").
  by right.
Defined.

(** ** The order in which an empty pool fills *)

Section FillFacts.

Lemma fill_from self contents_mgr path (j : Z) calls fs :
  0 ≤ j →
  (∀ i, 0 ≤ i < j → is_Some (slot_file self path fs (slot_id i))) →
  (∀ i, j ≤ i → slot_file self path fs (slot_id i) = None) →
  is_Some (files fs !! cm_get_os_path contents_mgr path) →
  j + Z.of_nat (length calls) ≤ max_checkpoints self →
  create_results self contents_mgr path calls fs
  = imap (λ k call, Ok (info.mk (slot_id (j + Z.of_nat k)) call.2)) calls.
Proof.
  revert j fs. induction calls as [|[cur_time stamp] calls IH]; [done|].
  intros j fs Hj Hbelow Habove [src Hsrc] Hlen. cbn [length] in Hlen.
  cbn [create_results]. rewrite imap_cons. cbn [snd].
  assert (lowest_free self path fs j) as Hfree.
  { split; [lia|]. split; [apply Habove; lia|done]. }
  rewrite create_checkpoint_run, (chosen_slot_free _ _ cur_time _ _ Hfree).
  unfold write_slot. rewrite Hsrc. cbn [fst snd]. rewrite Z.add_0_r. f_equal.
  set (fs1 := with_files _ _).
  assert (files fs1
          = <[checkpoint_location self (slot_id j) path
              := {| st_mtime := stamp; content := content src |}]> (files fs))
    as Hf by done.
  pose proof (slot_file_insert self path fs fs1 (slot_id j) _ Hf) as Hslot.
  rewrite (IH (j + 1) fs1).
  - apply imap_ext. intros k call _. cbn. do 3 f_equal. lia.
  - lia.
  - intros i Hi. rewrite Hslot. destruct (decide (slot_id i = slot_id j)); [by eexists|].
    apply Hbelow. assert (i ≠ j) by congruence. lia.
  - intros i Hi. rewrite Hslot, decide_False; [apply Habove; lia|].
    intros Heq. apply slot_id_inj in Heq. lia.
  - rewrite Hf. destruct (decide (checkpoint_location self (slot_id j) path
                                  = cm_get_os_path contents_mgr path)) as [<-|Hne].
    + rewrite lookup_insert_eq. by eexists.
    + rewrite lookup_insert_ne by done. by eexists.
  - lia.
Qed.

End FillFacts.

(** X19: starting from no checkpoints, with the live document in place, up
    to [max_checkpoints] creates in a row all succeed and take the slots in
    pool order, the k-th call slot [k], whatever the clock readings are. *)
Theorem creates_fill_in_order
    (self : FileCheckpoints) (contents_mgr : ContentsManager) (path : string)
    (calls : list (datetime * datetime)) (fs : FS) :
  (∀ c, slot_file self path fs c = None) →
  is_Some (files fs !! cm_get_os_path contents_mgr path) →
  Z.of_nat (length calls) ≤ max_checkpoints self →
  create_results self contents_mgr path calls fs
  = imap (λ k call, Ok (info.mk (slot_id (Z.of_nat k)) call.2)) calls.
Proof.
  intros Hnone Hsrc Hlen.
  rewrite (fill_from self contents_mgr path 0 calls fs); try done; lia.
Qed.

Lemma creates_fill_in_order_witness :
  create_results two_slots srv_mgr "a/nb.ipynb" [(sec 100, sec 7); (sec 0, sec 3)] fs_doc
  = [Ok (info.mk (slot_id 0) (sec 7)); Ok (info.mk (slot_id 1) (sec 3))].
Proof.
  apply (creates_fill_in_order two_slots srv_mgr "a/nb.ipynb"
           [(sec 100, sec 7); (sec 0, sec 3)] fs_doc).
  - exact fs_doc_no_checkpoints.
  - vm_compute. by eexists.
  - by vm_compute.
Defined.

(** X20: as for files, the record that [create_notebook_checkpoint]
    returns describes an existing file at the location of the bare id
    ["checkpoint"], so [get_notebook_checkpoint] with the returned id raises
    no 404 of its own and hands over to the notebook reader. *)
Theorem notebook_create_then_retrieve
    (self : FileCheckpoints) (nb path : string) (fs : FS) (r : info.t) (fs1 : FS) :
  create_notebook_checkpoint self nb path fs = (Ok r, fs1) →
  info.id r = "checkpoint"
  ∧ (∃ f, slot_file self path fs1 "checkpoint" = Some f
          ∧ st_mtime f = info.last_modified r)
  ∧ get_notebook_checkpoint self (info.id r) path fs1
    = bind (_read_notebook (fm self) (checkpoint_location self "checkpoint" path))
        (λ nb, ret (notebook_model nb))
        (mkdir (checkpoint_dir_of self path) fs1).
Proof.
  intros Hrun. pose proof (create_notebook_checkpoint_id _ _ _ _ _ _ Hrun) as Hid.
  split; [done|]. rewrite Hid.
  assert (∃ f, slot_file self path fs1 "checkpoint" = Some f
               ∧ st_mtime f = info.last_modified r) as (f & Hf & Hmt).
  { revert Hrun. unfold create_notebook_checkpoint.
    rewrite bind_run, checkpoint_path_run, checkpoint_path_strip, bind_run.
    destruct (perm_to_403 _ _) as [[[]|e] fs']; [|done].
    unfold checkpoint_model. rewrite bind_run. unfold stat_mtime, slot_file.
    destruct (files fs' !! _) as [f|] eqn:Hf; [|done].
    unfold ret. intros [= <- <-]. by exists f. }
  split; [by exists f|]. unfold slot_file in Hf.
  by rewrite get_notebook_checkpoint_run, Hf.
Qed.

Lemma notebook_create_then_retrieve_witness :
  (get_notebook_checkpoint two_slots "checkpoint" "a/nb.ipynb"
     (create_notebook_checkpoint two_slots "{}" "a/nb.ipynb" fs_doc).2).1
  = Ok (notebook_model "{}").
Proof.
  destruct (notebook_create_then_retrieve two_slots "{}" "a/nb.ipynb" fs_doc
              (info.mk "checkpoint" 0)
              (create_notebook_checkpoint two_slots "{}" "a/nb.ipynb" fs_doc).2)
    as (_ & _ & Hget); [by vm_compute|].
  cbn [info.id] in Hget. rewrite Hget. by vm_compute.
Defined.

(** X21: the checkpoint file name tells the document and the slot: if two
    documents and two pool slots give the same checkpoint file name, the
    documents have the same file name and the slots are the same. *)
Theorem checkpoint_file_name_unique (i1 i2 : Z) (path1 path2 : string) :
  0 ≤ i1 → 0 ≤ i2 →
  checkpoint_file_name (slot_id i1) path1 = checkpoint_file_name (slot_id i2) path2 →
  (parent_and_name (Py.strip Py.sep path1)).2
  = (parent_and_name (Py.strip Py.sep path2)).2
  ∧ i1 = i2.
Proof.
  intros H1 H2 Heq.
  pose proof (f_equal Py.splitext Heq) as Hs.
  rewrite !file_name_splitext in Hs by (apply occurs_slot_id; auto).
  cbv zeta in Hs.
  injection Hs as Hbase Hext.
  apply split_at_last in Hbase as [Hb Hid]; try by apply occurs_dash_slot_id.
  split; [|by apply slot_id_inj].
  rewrite <- (PyFacts.splitext_app (parent_and_name (Py.strip Py.sep path1)).2).
  rewrite <- (PyFacts.splitext_app (parent_and_name (Py.strip Py.sep path2)).2).
  by rewrite Hb, Hext.
Qed.

Lemma checkpoint_file_name_unique_witness :
  (parent_and_name (Py.strip Py.sep "a/nb.ipynb")).2
  = (parent_and_name (Py.strip Py.sep "/b/c/nb.ipynb/")).2
  ∧ 1 = 1.
Proof.
  apply (checkpoint_file_name_unique 1 1 "a/nb.ipynb" "/b/c/nb.ipynb/");
    [lia|lia|reflexivity].
Defined.
